(** * InvenTree plugin loader ([InvenTree/plugin/apps.py])

    A shallow embedding of [PluginAppConfig]: the load / unload / reload
    entry points, the retry loop with its blocked plugin, the two capability
    binders and the reload helpers.  Python state ([django.conf.settings],
    the maintenance flag, the plugin table of the database, the settings
    catalog and the Django app registry) is one record threaded through a
    state-and-exception monad. *)

From stdpp Require Import base option list strings gmap fin_maps.
From Stdlib Require Import Ascii String Lia.

Local Open Scope string_scope.
Local Open Scope list_scope.

(** ** Python values *)

Module Py.

(** Exceptions that travel through the loader.  [PluginLoadingError] is the
    class declared at the top of [apps.py]; the others are Python's or
    Django's. *)
Inductive exn : Type :=
| OperationalError
| ProgrammingError
| PluginLoadingError (path message : string)
| ValueError (message : string)
| IndexError
| KeyError (key : string)
| LookupError (message : string)
| NotRegistered (model : string)
| AttributeError (message : string)
| OtherException (name : string).

(** [except (OperationalError, ProgrammingError)] *)
Definition is_db_error (e : exn) : bool :=
  match e with
  | OperationalError | ProgrammingError => true
  | _ => false
  end.

(** ** Insertion-ordered dictionaries

    A [dict] keeps the position of a key that is assigned again and puts a
    new key last; iteration follows that order. *)
Section Dict.
Context {V : Type}.

Fixpoint dict_get (k : string) (d : list (string * V)) : option V :=
  match d with
  | [] => None
  | (k', v) :: d' => if String.eqb k k' then Some v else dict_get k d'
  end.

Fixpoint dict_set (k : string) (v : V) (d : list (string * V)) : list (string * V) :=
  match d with
  | [] => [(k, v)]
  | (k', v') :: d' =>
      if String.eqb k k' then (k, v) :: d' else (k', v') :: dict_set k v d'
  end.

Fixpoint dict_del (k : string) (d : list (string * V)) : list (string * V) :=
  match d with
  | [] => []
  | (k', v') :: d' =>
      if String.eqb k k' then d' else (k', v') :: dict_del k d'
  end.

(** [d.update(other)] *)
Definition dict_update (d other : list (string * V)) : list (string * V) :=
  fold_left (fun acc kv => dict_set (fst kv) (snd kv) acc) other d.

Definition dict_keys (d : list (string * V)) : list string := map fst d.

Definition dict_has (k : string) (d : list (string * V)) : bool :=
  match dict_get k d with Some _ => true | None => false end.
End Dict.

(** [x in l] and [l.remove(x)] on lists of strings. *)
Fixpoint list_in (x : string) (l : list string) : bool :=
  match l with
  | [] => false
  | y :: l' => if String.eqb x y then true else list_in x l'
  end.

Fixpoint list_remove (x : string) (l : list string) : list string :=
  match l with
  | [] => []
  | y :: l' => if String.eqb x y then l' else y :: list_remove x l'
  end.

(** [l.count(x)] *)
Fixpoint occurrences (x : string) (l : list string) : nat :=
  match l with
  | [] => 0
  | y :: l' => if String.eqb x y then S (occurrences x l') else occurrences x l'
  end.

(** Truth value of an optional string: [None] and [''] are false. *)
Definition truthy (o : option string) : bool :=
  match o with
  | Some s => negb (String.eqb s "")
  | None => false
  end.

(** ** Paths ([pathlib])

    A path is the list of its components ([Path.parts]).
    [Path(p).relative_to(base)] raises [ValueError] unless [base] is a
    prefix of [p]; here [None] stands for the [ValueError]. *)
Fixpoint relative_to (p base : list string) : option (list string) :=
  match base with
  | [] => Some p
  | b :: base' =>
      match p with
      | [] => None
      | c :: p' => if String.eqb b c then relative_to p' base' else None
      end
  end.

(** ['.'.join(parts)] *)
Definition join_dot (parts : list string) : string := String.concat "." parts.

(** [s.split('.')[-1]]: the text after the last dot. *)
Fixpoint last_component_from (cur s : string) : string :=
  match s with
  | EmptyString => cur
  | String c s' =>
      if Ascii.eqb c "."%char then last_component_from "" s'
      else last_component_from (cur ++ String c "") s'
  end.

Definition split_dot_last (s : string) : string := last_component_from "" s.

End Py.
Export Py.

(** ** Data model *)

(** An option of a plugin's settings schema; the loader never looks inside. *)
Definition SettingDef : Type := string.

(** A row of [plugin.models.PluginConfig]. *)
Record PluginConfig : Type := {
  pk : nat;
  key : string;
  name : string;
  active : bool;
}.

(** An instantiated plugin, as far as the loader reads it: the [slug]
    property, the directory [path], [PLUGIN_NAME], the mixins it enables
    ([mixin_enabled]), its [globalsettingspatterns], and the two attributes
    the loader writes, [is_package] and [pk]. *)
Record Instance : Type := {
  slug : string;
  path : list string;
  inst_PLUGIN_NAME : string;
  mixins : list string;
  globalsettingspatterns : list (string * SettingDef);
  is_package : bool;
  inst_pk : option nat;
}.

(** A discovered plugin class.  [construct] is the outcome of calling the
    class: the new instance, or the exception its [__init__] raises. *)
Record PluginClass : Type := {
  __name__ : string;
  PLUGIN_NAME : string;
  PLUGIN_SLUG : option string;
  class_is_package : bool;
  construct : Instance + exn;
}.

(** The plugin table.  [unavailable] is [Some e] while the table has not been
    provisioned: every access then raises [e]. *)
Record Database : Type := {
  unavailable : option exn;
  rows : list PluginConfig;
  next_pk : nat;
}.

(** Django's app registry, the admin site and the root url list. *)
Record Model : Type := {
  app_label : string;
  model_name : string;
}.

Record AppConfig : Type := {
  models_module : bool;
  models : list Model;
  has_admin : bool;
}.

Inductive UrlPattern : Type :=
| AdminUrls (registered : list Model)
| PluginUrls (slugs : list string)
| OtherUrls (app_name : option string).

Record Host : Type := {
  app_configs : list (string * AppConfig);
  apps_ready : bool;
  models_ready : bool;
  loading : bool;
  ready : bool;
  all_models : list (string * list (string * Model));
  admin_registry : list Model;
  urlpatterns : list UrlPattern;
}.

(** An exception raised by a hot swap of the app registry: the file name of
    the last frame of its traceback and its text ([str(error)]). *)
Record Failure : Type := {
  frame_file : list string;
  failure_text : string;
}.

(** Everything the loader reads and writes. *)
Record State : Type := {
  PLUGINS : list PluginClass;
  INTEGRATION_PLUGINS : list (string * Instance);
  INTEGRATION_PLUGINS_INACTIVE : list (string * option PluginConfig);
  INTEGRATION_PLUGIN_GLOBALSETTING : list (string * list (string * SettingDef));
  INSTALLED_APPS : list string;
  INTEGRATION_APPS_PATHS : list string;
  INTEGRATION_APPS_LOADING : bool;
  INTEGRATION_APPS_LOADED : bool;
  INTEGRATION_PLUGINS_RELOADING : bool;
  INTEGRATION_ERRORS : list (string * string * string);
  maintenance_flag : bool;
  database : Database;
  GLOBAL_SETTINGS : gmap string SettingDef;
  apps : Host;
}.

(** Settings that stay fixed during a call, and the collaborators that live
    outside [apps.py]: Django's [slugify], the two hot-swap primitives
    [apps.populate] and [apps.set_installed_apps], and [importlib.reload] of
    a plugin's models and admin modules. *)
Record Env : Type := {
  PLUGIN_TESTING : bool;
  BASE_DIR : list string;
  purelib : list string;
  ENABLE_PLUGINS_APP : bool;
  ENABLE_PLUGINS_GLOBALSETTING : bool;
  new_record_active : bool;
  slugify : string -> string;
  populate : list string -> Host -> Host * option Failure;
  set_installed_apps : list string -> Host -> Host * option Failure;
  reload_models : string -> Host -> Host;
  reload_admin : string -> Host -> Host;
}.

(** Field updates. *)
Definition set_app_configs (v : list (string * AppConfig)) (s : Host) : Host :=
  {| app_configs := v; apps_ready := apps_ready s; models_ready := models_ready s; loading := loading s; ready := ready s; all_models := all_models s; admin_registry := admin_registry s; urlpatterns := urlpatterns s |}.

Definition set_apps_ready (v : bool) (s : Host) : Host :=
  {| app_configs := app_configs s; apps_ready := v; models_ready := models_ready s; loading := loading s; ready := ready s; all_models := all_models s; admin_registry := admin_registry s; urlpatterns := urlpatterns s |}.

Definition set_models_ready (v : bool) (s : Host) : Host :=
  {| app_configs := app_configs s; apps_ready := apps_ready s; models_ready := v; loading := loading s; ready := ready s; all_models := all_models s; admin_registry := admin_registry s; urlpatterns := urlpatterns s |}.

Definition set_loading (v : bool) (s : Host) : Host :=
  {| app_configs := app_configs s; apps_ready := apps_ready s; models_ready := models_ready s; loading := v; ready := ready s; all_models := all_models s; admin_registry := admin_registry s; urlpatterns := urlpatterns s |}.

Definition set_ready (v : bool) (s : Host) : Host :=
  {| app_configs := app_configs s; apps_ready := apps_ready s; models_ready := models_ready s; loading := loading s; ready := v; all_models := all_models s; admin_registry := admin_registry s; urlpatterns := urlpatterns s |}.

Definition set_all_models (v : list (string * list (string * Model))) (s : Host) : Host :=
  {| app_configs := app_configs s; apps_ready := apps_ready s; models_ready := models_ready s; loading := loading s; ready := ready s; all_models := v; admin_registry := admin_registry s; urlpatterns := urlpatterns s |}.

Definition set_admin_registry (v : list Model) (s : Host) : Host :=
  {| app_configs := app_configs s; apps_ready := apps_ready s; models_ready := models_ready s; loading := loading s; ready := ready s; all_models := all_models s; admin_registry := v; urlpatterns := urlpatterns s |}.

Definition set_urlpatterns (v : list UrlPattern) (s : Host) : Host :=
  {| app_configs := app_configs s; apps_ready := apps_ready s; models_ready := models_ready s; loading := loading s; ready := ready s; all_models := all_models s; admin_registry := admin_registry s; urlpatterns := v |}.

Definition set_PLUGINS (v : list PluginClass) (s : State) : State :=
  {| PLUGINS := v; INTEGRATION_PLUGINS := INTEGRATION_PLUGINS s; INTEGRATION_PLUGINS_INACTIVE := INTEGRATION_PLUGINS_INACTIVE s; INTEGRATION_PLUGIN_GLOBALSETTING := INTEGRATION_PLUGIN_GLOBALSETTING s; INSTALLED_APPS := INSTALLED_APPS s; INTEGRATION_APPS_PATHS := INTEGRATION_APPS_PATHS s; INTEGRATION_APPS_LOADING := INTEGRATION_APPS_LOADING s; INTEGRATION_APPS_LOADED := INTEGRATION_APPS_LOADED s; INTEGRATION_PLUGINS_RELOADING := INTEGRATION_PLUGINS_RELOADING s; INTEGRATION_ERRORS := INTEGRATION_ERRORS s; maintenance_flag := maintenance_flag s; database := database s; GLOBAL_SETTINGS := GLOBAL_SETTINGS s; apps := apps s |}.

Definition set_INTEGRATION_PLUGINS (v : list (string * Instance)) (s : State) : State :=
  {| PLUGINS := PLUGINS s; INTEGRATION_PLUGINS := v; INTEGRATION_PLUGINS_INACTIVE := INTEGRATION_PLUGINS_INACTIVE s; INTEGRATION_PLUGIN_GLOBALSETTING := INTEGRATION_PLUGIN_GLOBALSETTING s; INSTALLED_APPS := INSTALLED_APPS s; INTEGRATION_APPS_PATHS := INTEGRATION_APPS_PATHS s; INTEGRATION_APPS_LOADING := INTEGRATION_APPS_LOADING s; INTEGRATION_APPS_LOADED := INTEGRATION_APPS_LOADED s; INTEGRATION_PLUGINS_RELOADING := INTEGRATION_PLUGINS_RELOADING s; INTEGRATION_ERRORS := INTEGRATION_ERRORS s; maintenance_flag := maintenance_flag s; database := database s; GLOBAL_SETTINGS := GLOBAL_SETTINGS s; apps := apps s |}.

Definition set_INTEGRATION_PLUGINS_INACTIVE (v : list (string * option PluginConfig)) (s : State) : State :=
  {| PLUGINS := PLUGINS s; INTEGRATION_PLUGINS := INTEGRATION_PLUGINS s; INTEGRATION_PLUGINS_INACTIVE := v; INTEGRATION_PLUGIN_GLOBALSETTING := INTEGRATION_PLUGIN_GLOBALSETTING s; INSTALLED_APPS := INSTALLED_APPS s; INTEGRATION_APPS_PATHS := INTEGRATION_APPS_PATHS s; INTEGRATION_APPS_LOADING := INTEGRATION_APPS_LOADING s; INTEGRATION_APPS_LOADED := INTEGRATION_APPS_LOADED s; INTEGRATION_PLUGINS_RELOADING := INTEGRATION_PLUGINS_RELOADING s; INTEGRATION_ERRORS := INTEGRATION_ERRORS s; maintenance_flag := maintenance_flag s; database := database s; GLOBAL_SETTINGS := GLOBAL_SETTINGS s; apps := apps s |}.

Definition set_INTEGRATION_PLUGIN_GLOBALSETTING (v : list (string * list (string * SettingDef))) (s : State) : State :=
  {| PLUGINS := PLUGINS s; INTEGRATION_PLUGINS := INTEGRATION_PLUGINS s; INTEGRATION_PLUGINS_INACTIVE := INTEGRATION_PLUGINS_INACTIVE s; INTEGRATION_PLUGIN_GLOBALSETTING := v; INSTALLED_APPS := INSTALLED_APPS s; INTEGRATION_APPS_PATHS := INTEGRATION_APPS_PATHS s; INTEGRATION_APPS_LOADING := INTEGRATION_APPS_LOADING s; INTEGRATION_APPS_LOADED := INTEGRATION_APPS_LOADED s; INTEGRATION_PLUGINS_RELOADING := INTEGRATION_PLUGINS_RELOADING s; INTEGRATION_ERRORS := INTEGRATION_ERRORS s; maintenance_flag := maintenance_flag s; database := database s; GLOBAL_SETTINGS := GLOBAL_SETTINGS s; apps := apps s |}.

Definition set_INSTALLED_APPS (v : list string) (s : State) : State :=
  {| PLUGINS := PLUGINS s; INTEGRATION_PLUGINS := INTEGRATION_PLUGINS s; INTEGRATION_PLUGINS_INACTIVE := INTEGRATION_PLUGINS_INACTIVE s; INTEGRATION_PLUGIN_GLOBALSETTING := INTEGRATION_PLUGIN_GLOBALSETTING s; INSTALLED_APPS := v; INTEGRATION_APPS_PATHS := INTEGRATION_APPS_PATHS s; INTEGRATION_APPS_LOADING := INTEGRATION_APPS_LOADING s; INTEGRATION_APPS_LOADED := INTEGRATION_APPS_LOADED s; INTEGRATION_PLUGINS_RELOADING := INTEGRATION_PLUGINS_RELOADING s; INTEGRATION_ERRORS := INTEGRATION_ERRORS s; maintenance_flag := maintenance_flag s; database := database s; GLOBAL_SETTINGS := GLOBAL_SETTINGS s; apps := apps s |}.

Definition set_INTEGRATION_APPS_PATHS (v : list string) (s : State) : State :=
  {| PLUGINS := PLUGINS s; INTEGRATION_PLUGINS := INTEGRATION_PLUGINS s; INTEGRATION_PLUGINS_INACTIVE := INTEGRATION_PLUGINS_INACTIVE s; INTEGRATION_PLUGIN_GLOBALSETTING := INTEGRATION_PLUGIN_GLOBALSETTING s; INSTALLED_APPS := INSTALLED_APPS s; INTEGRATION_APPS_PATHS := v; INTEGRATION_APPS_LOADING := INTEGRATION_APPS_LOADING s; INTEGRATION_APPS_LOADED := INTEGRATION_APPS_LOADED s; INTEGRATION_PLUGINS_RELOADING := INTEGRATION_PLUGINS_RELOADING s; INTEGRATION_ERRORS := INTEGRATION_ERRORS s; maintenance_flag := maintenance_flag s; database := database s; GLOBAL_SETTINGS := GLOBAL_SETTINGS s; apps := apps s |}.

Definition set_INTEGRATION_APPS_LOADING (v : bool) (s : State) : State :=
  {| PLUGINS := PLUGINS s; INTEGRATION_PLUGINS := INTEGRATION_PLUGINS s; INTEGRATION_PLUGINS_INACTIVE := INTEGRATION_PLUGINS_INACTIVE s; INTEGRATION_PLUGIN_GLOBALSETTING := INTEGRATION_PLUGIN_GLOBALSETTING s; INSTALLED_APPS := INSTALLED_APPS s; INTEGRATION_APPS_PATHS := INTEGRATION_APPS_PATHS s; INTEGRATION_APPS_LOADING := v; INTEGRATION_APPS_LOADED := INTEGRATION_APPS_LOADED s; INTEGRATION_PLUGINS_RELOADING := INTEGRATION_PLUGINS_RELOADING s; INTEGRATION_ERRORS := INTEGRATION_ERRORS s; maintenance_flag := maintenance_flag s; database := database s; GLOBAL_SETTINGS := GLOBAL_SETTINGS s; apps := apps s |}.

Definition set_INTEGRATION_APPS_LOADED (v : bool) (s : State) : State :=
  {| PLUGINS := PLUGINS s; INTEGRATION_PLUGINS := INTEGRATION_PLUGINS s; INTEGRATION_PLUGINS_INACTIVE := INTEGRATION_PLUGINS_INACTIVE s; INTEGRATION_PLUGIN_GLOBALSETTING := INTEGRATION_PLUGIN_GLOBALSETTING s; INSTALLED_APPS := INSTALLED_APPS s; INTEGRATION_APPS_PATHS := INTEGRATION_APPS_PATHS s; INTEGRATION_APPS_LOADING := INTEGRATION_APPS_LOADING s; INTEGRATION_APPS_LOADED := v; INTEGRATION_PLUGINS_RELOADING := INTEGRATION_PLUGINS_RELOADING s; INTEGRATION_ERRORS := INTEGRATION_ERRORS s; maintenance_flag := maintenance_flag s; database := database s; GLOBAL_SETTINGS := GLOBAL_SETTINGS s; apps := apps s |}.

Definition set_INTEGRATION_PLUGINS_RELOADING (v : bool) (s : State) : State :=
  {| PLUGINS := PLUGINS s; INTEGRATION_PLUGINS := INTEGRATION_PLUGINS s; INTEGRATION_PLUGINS_INACTIVE := INTEGRATION_PLUGINS_INACTIVE s; INTEGRATION_PLUGIN_GLOBALSETTING := INTEGRATION_PLUGIN_GLOBALSETTING s; INSTALLED_APPS := INSTALLED_APPS s; INTEGRATION_APPS_PATHS := INTEGRATION_APPS_PATHS s; INTEGRATION_APPS_LOADING := INTEGRATION_APPS_LOADING s; INTEGRATION_APPS_LOADED := INTEGRATION_APPS_LOADED s; INTEGRATION_PLUGINS_RELOADING := v; INTEGRATION_ERRORS := INTEGRATION_ERRORS s; maintenance_flag := maintenance_flag s; database := database s; GLOBAL_SETTINGS := GLOBAL_SETTINGS s; apps := apps s |}.

Definition set_INTEGRATION_ERRORS (v : list (string * string * string)) (s : State) : State :=
  {| PLUGINS := PLUGINS s; INTEGRATION_PLUGINS := INTEGRATION_PLUGINS s; INTEGRATION_PLUGINS_INACTIVE := INTEGRATION_PLUGINS_INACTIVE s; INTEGRATION_PLUGIN_GLOBALSETTING := INTEGRATION_PLUGIN_GLOBALSETTING s; INSTALLED_APPS := INSTALLED_APPS s; INTEGRATION_APPS_PATHS := INTEGRATION_APPS_PATHS s; INTEGRATION_APPS_LOADING := INTEGRATION_APPS_LOADING s; INTEGRATION_APPS_LOADED := INTEGRATION_APPS_LOADED s; INTEGRATION_PLUGINS_RELOADING := INTEGRATION_PLUGINS_RELOADING s; INTEGRATION_ERRORS := v; maintenance_flag := maintenance_flag s; database := database s; GLOBAL_SETTINGS := GLOBAL_SETTINGS s; apps := apps s |}.

Definition set_maintenance_flag (v : bool) (s : State) : State :=
  {| PLUGINS := PLUGINS s; INTEGRATION_PLUGINS := INTEGRATION_PLUGINS s; INTEGRATION_PLUGINS_INACTIVE := INTEGRATION_PLUGINS_INACTIVE s; INTEGRATION_PLUGIN_GLOBALSETTING := INTEGRATION_PLUGIN_GLOBALSETTING s; INSTALLED_APPS := INSTALLED_APPS s; INTEGRATION_APPS_PATHS := INTEGRATION_APPS_PATHS s; INTEGRATION_APPS_LOADING := INTEGRATION_APPS_LOADING s; INTEGRATION_APPS_LOADED := INTEGRATION_APPS_LOADED s; INTEGRATION_PLUGINS_RELOADING := INTEGRATION_PLUGINS_RELOADING s; INTEGRATION_ERRORS := INTEGRATION_ERRORS s; maintenance_flag := v; database := database s; GLOBAL_SETTINGS := GLOBAL_SETTINGS s; apps := apps s |}.

Definition set_database (v : Database) (s : State) : State :=
  {| PLUGINS := PLUGINS s; INTEGRATION_PLUGINS := INTEGRATION_PLUGINS s; INTEGRATION_PLUGINS_INACTIVE := INTEGRATION_PLUGINS_INACTIVE s; INTEGRATION_PLUGIN_GLOBALSETTING := INTEGRATION_PLUGIN_GLOBALSETTING s; INSTALLED_APPS := INSTALLED_APPS s; INTEGRATION_APPS_PATHS := INTEGRATION_APPS_PATHS s; INTEGRATION_APPS_LOADING := INTEGRATION_APPS_LOADING s; INTEGRATION_APPS_LOADED := INTEGRATION_APPS_LOADED s; INTEGRATION_PLUGINS_RELOADING := INTEGRATION_PLUGINS_RELOADING s; INTEGRATION_ERRORS := INTEGRATION_ERRORS s; maintenance_flag := maintenance_flag s; database := v; GLOBAL_SETTINGS := GLOBAL_SETTINGS s; apps := apps s |}.

Definition set_GLOBAL_SETTINGS (v : gmap string SettingDef) (s : State) : State :=
  {| PLUGINS := PLUGINS s; INTEGRATION_PLUGINS := INTEGRATION_PLUGINS s; INTEGRATION_PLUGINS_INACTIVE := INTEGRATION_PLUGINS_INACTIVE s; INTEGRATION_PLUGIN_GLOBALSETTING := INTEGRATION_PLUGIN_GLOBALSETTING s; INSTALLED_APPS := INSTALLED_APPS s; INTEGRATION_APPS_PATHS := INTEGRATION_APPS_PATHS s; INTEGRATION_APPS_LOADING := INTEGRATION_APPS_LOADING s; INTEGRATION_APPS_LOADED := INTEGRATION_APPS_LOADED s; INTEGRATION_PLUGINS_RELOADING := INTEGRATION_PLUGINS_RELOADING s; INTEGRATION_ERRORS := INTEGRATION_ERRORS s; maintenance_flag := maintenance_flag s; database := database s; GLOBAL_SETTINGS := v; apps := apps s |}.

Definition set_apps (v : Host) (s : State) : State :=
  {| PLUGINS := PLUGINS s; INTEGRATION_PLUGINS := INTEGRATION_PLUGINS s; INTEGRATION_PLUGINS_INACTIVE := INTEGRATION_PLUGINS_INACTIVE s; INTEGRATION_PLUGIN_GLOBALSETTING := INTEGRATION_PLUGIN_GLOBALSETTING s; INSTALLED_APPS := INSTALLED_APPS s; INTEGRATION_APPS_PATHS := INTEGRATION_APPS_PATHS s; INTEGRATION_APPS_LOADING := INTEGRATION_APPS_LOADING s; INTEGRATION_APPS_LOADED := INTEGRATION_APPS_LOADED s; INTEGRATION_PLUGINS_RELOADING := INTEGRATION_PLUGINS_RELOADING s; INTEGRATION_ERRORS := INTEGRATION_ERRORS s; maintenance_flag := maintenance_flag s; database := database s; GLOBAL_SETTINGS := GLOBAL_SETTINGS s; apps := v |}.


(** ** The state-and-exception monad

    A call either returns a value or raises; both carry the state reached,
    since Python keeps every write made before the exception. *)

Inductive result (A : Type) : Type :=
| Ok (a : A) (s : State)
| Raise (e : exn) (s : State).
Arguments Ok {A} a s.
Arguments Raise {A} e s.

Definition M (A : Type) : Type := State -> result A.

Definition ret {A : Type} (a : A) : M A := fun s => Ok a s.

Definition bind {A B : Type} (m : M A) (f : A -> M B) : M B :=
  fun s =>
    match m s with
    | Ok a s' => f a s'
    | Raise e s' => Raise e s'
    end.

Definition raise {A : Type} (e : exn) : M A := fun s => Raise e s.

Definition gets {A : Type} (f : State -> A) : M A := fun s => Ok (f s) s.

Definition modify (f : State -> State) : M unit := fun s => Ok tt (f s).

Definition state_of {A : Type} (r : result A) : State :=
  match r with
  | Ok _ s => s
  | Raise _ s => s
  end.

Definition returned {A : Type} (r : result A) : bool :=
  match r with
  | Ok _ _ => true
  | Raise _ _ => false
  end.

Declare Scope py_scope.
Delimit Scope py_scope with py.
Notation "x <- c1 ;; c2" := (bind c1 (fun x => c2))
  (at level 100, c1 at next level, right associativity) : py_scope.
Notation "c1 ;; c2" := (bind c1 (fun _ => c2))
  (at level 100, right associativity) : py_scope.
Local Open Scope py_scope.

(** [for x in l: body(x)] without [break]. *)
Fixpoint for_each {A : Type} (body : A -> M unit) (l : list A) : M unit :=
  match l with
  | [] => ret tt
  | x :: l' => body x ;; for_each body l'
  end.

(** ** Collaborators of the loader *)

Section Loader.
Variable env : Env.

(** Modelled from the spec: [plugin.plugins.load_integration_plugins], the
    discovery collaborator, yields the plugin classes discovery has
    collected in [settings.PLUGINS], in order. *)
Definition load_integration_plugins : M (list PluginClass) := gets PLUGINS.

Definition find_row (k : string) (rs : list PluginConfig) : option PluginConfig :=
  List.find (fun r => String.eqb (key r) k) rs.

(** Modelled from the spec: [PluginConfig.objects.get_or_create] of
    [plugin.models], the persistence collaborator.  It is keyed by slug: the
    record of a slug seen before is returned, a slug not seen before gets a
    new record carrying the name; while the store is not provisioned the
    call raises the not-ready error.  The spec leaves the flag of a new
    record open; it is [new_record_active]. *)
Definition get_or_create (plug_key plug_name : string) : M PluginConfig :=
  fun s =>
    let d := database s in
    match unavailable d with
    | Some e => Raise e s
    | None =>
        match find_row plug_key (rows d) with
        | Some r => Ok r s
        | None =>
            let r := {| pk := next_pk d; key := plug_key; name := plug_name;
                        active := new_record_active env |} in
            Ok r (set_database {| unavailable := None;
                                  rows := rows d ++ [r];
                                  next_pk := S (next_pk d) |} s)
        end
    end.

(** Modelled from the spec: [PluginConfig.save], which persists the record
    under its identifier. *)
Definition save (r : PluginConfig) : M unit :=
  fun s =>
    let d := database s in
    match unavailable d with
    | Some e => Raise e s
    | None =>
        Ok tt (set_database
                 {| unavailable := None;
                    rows := map (fun r' => if Nat.eqb (pk r') (pk r) then r else r') (rows d);
                    next_pk := next_pk d |} s)
    end.

(** Modelled from the spec: [plugin.helpers.log_plugin_error], which files
    the message under the plugin's identity and the stage it failed in. *)
Definition log_plugin_error (ident message reference : string) : M unit :=
  modify (fun s => set_INTEGRATION_ERRORS
                     (INTEGRATION_ERRORS s ++ [(reference, ident, message)]) s).

(** [maintenance_mode.core] keeps one flag. *)
Definition get_maintenance_mode : M bool := gets maintenance_flag.
Definition set_maintenance_mode (v : bool) : M unit := modify (set_maintenance_flag v).

(** [plugin.mixin_enabled(key)] *)
Definition mixin_enabled (k : string) (plugin : Instance) : bool :=
  list_in k (mixins plugin).

Definition same_model (m m' : Model) : bool :=
  String.eqb (app_label m) (app_label m') && String.eqb (model_name m) (model_name m').

(** [admin.site.is_registered(model)] *)
Definition is_registered (m : Model) (h : Host) : bool :=
  existsb (same_model m) (admin_registry h).

(** ** [_init_plugins] *)

(** [slugify(plugin.PLUGIN_SLUG if getattr(plugin, 'PLUGIN_SLUG', None) else plug_name)] *)
Definition plug_key_of (plugin : PluginClass) : string :=
  slugify env (if truthy (PLUGIN_SLUG plugin)
               then default "" (PLUGIN_SLUG plugin)
               else PLUGIN_NAME plugin).

(** The [try] around [get_or_create]. *)
Definition resolve_db_setting (plug_key plug_name : string) : M (option PluginConfig) :=
  fun s =>
    match get_or_create plug_key plug_name s with
    | Ok r s' => Ok (Some r) s'
    | Raise e s' =>
        if is_db_error e then
          if PLUGIN_TESTING env then Ok None s' else Raise e s'
        else Raise e s'
    end.

(** [plugin_db_setting.active = False] *)
Definition deactivated (r : PluginConfig) : PluginConfig :=
  {| pk := pk r; key := key r; name := name r; active := false |}.

(** [plugin.is_package = was_packaged] and, when there is a record,
    [plugin.pk = plugin_db_setting.pk]. *)
Definition with_loader_attrs (was_packaged : bool) (setting : option PluginConfig)
    (i : Instance) : Instance :=
  {| slug := slug i; path := path i; inst_PLUGIN_NAME := inst_PLUGIN_NAME i;
     mixins := mixins i; globalsettingspatterns := globalsettingspatterns i;
     is_package := was_packaged;
     inst_pk := match setting with Some r => Some (pk r) | None => inst_pk i end |}.

(** The loop body after the record is resolved. *)
Definition init_with_setting (disabled : option string) (plugin : PluginClass)
    (plug_key : string) (plugin_db_setting : option PluginConfig) : M unit :=
  let was_packaged := class_is_package plugin in
  if PLUGIN_TESTING env
     || match plugin_db_setting with Some r => active r | None => false end
  then
    if truthy disabled && String.eqb (__name__ plugin) (default "" disabled)
    then
      setting <- (if negb (PLUGIN_TESTING env) then
                    match plugin_db_setting with
                    | Some r =>
                        log_plugin_error plug_key "Disabled" "init" ;;
                        save (deactivated r) ;;
                        ret (Some (deactivated r))
                    | None => raise (AttributeError "active")
                    end
                  else ret plugin_db_setting) ;;
      modify (fun s => set_INTEGRATION_PLUGINS_INACTIVE
                         (dict_set plug_key setting (INTEGRATION_PLUGINS_INACTIVE s)) s)
    else
      match construct plugin with
      | inr e => raise e
      | inl fresh =>
          let plugin' := with_loader_attrs was_packaged plugin_db_setting fresh in
          modify (fun s => set_INTEGRATION_PLUGINS
                             (dict_set (slug plugin') plugin' (INTEGRATION_PLUGINS s)) s)
      end
  else
    modify (fun s => set_INTEGRATION_PLUGINS_INACTIVE
                       (dict_set plug_key plugin_db_setting (INTEGRATION_PLUGINS_INACTIVE s)) s).

(** The body of [for plugin in inventree_plugins.load_integration_plugins()]. *)
Definition init_plugin (disabled : option string) (plugin : PluginClass) : M unit :=
  let plug_name := PLUGIN_NAME plugin in
  let plug_key := plug_key_of plugin in
  plugin_db_setting <- resolve_db_setting plug_key plug_name ;;
  init_with_setting disabled plugin plug_key plugin_db_setting.

Definition _init_plugins (disabled : option string) : M unit :=
  plugins <- load_integration_plugins ;;
  for_each (init_plugin disabled) plugins.

(** ** Settings binder *)

(** [InvenTreeSetting.GLOBAL_SETTINGS.update(plugin_setting)] *)
Definition catalog_update (catalog : gmap string SettingDef)
    (other : list (string * SettingDef)) : gmap string SettingDef :=
  fold_left (fun acc kv => <[fst kv := snd kv]> acc) other catalog.

(** The body of [for slug, plugin in plugins]. *)
Definition bind_globalsettings (item : string * Instance) : M unit :=
  let '(slug, plugin) := item in
  if mixin_enabled "globalsettings" plugin then
    let plugin_setting := globalsettingspatterns plugin in
    modify (fun s => set_INTEGRATION_PLUGIN_GLOBALSETTING
                       (dict_set slug plugin_setting (INTEGRATION_PLUGIN_GLOBALSETTING s)) s) ;;
    modify (fun s => set_GLOBAL_SETTINGS (catalog_update (GLOBAL_SETTINGS s) plugin_setting) s)
  else ret tt.

Definition activate_integration_globalsettings (plugins : list (string * Instance)) : M unit :=
  if PLUGIN_TESTING env || ENABLE_PLUGINS_GLOBALSETTING env
  then for_each bind_globalsettings plugins
  else ret tt.

(** [plugin_settings = {}; for ...: plugin_settings.update(plugin_setting)] *)
Definition collect_settings (tracked : list (string * list (string * SettingDef)))
    : list (string * SettingDef) :=
  fold_left (fun acc item => dict_update acc (snd item)) tracked [].

(** [InvenTreeSetting.GLOBAL_SETTINGS.pop(setting)], no default. *)
Definition catalog_pop (setting : string) : M unit :=
  fun s =>
    match GLOBAL_SETTINGS s !! setting with
    | Some _ => Ok tt (set_GLOBAL_SETTINGS (delete setting (GLOBAL_SETTINGS s)) s)
    | None => Raise (KeyError setting) s
    end.

Definition deactivate_integration_globalsettings : M unit :=
  tracked <- gets INTEGRATION_PLUGIN_GLOBALSETTING ;;
  let plugin_settings := collect_settings tracked in
  for_each catalog_pop (dict_keys plugin_settings) ;;
  modify (set_INTEGRATION_PLUGIN_GLOBALSETTING []).

(** ** Reload supervisor *)

(** [_try_reload(cmd, settings.INSTALLED_APPS)]: an exception of the hot
    swap is traded for a [PluginLoadingError] named after the first
    component of the failing file below [purelib].  [relative_to] raises
    [ValueError] for a file outside [purelib], and [parts[0]] raises
    [IndexError] for [purelib] itself. *)
Definition _try_reload (cmd : list string -> Host -> Host * option Failure) : M unit :=
  fun s =>
    let '(h, outcome) := cmd (INSTALLED_APPS s) (apps s) in
    let s' := set_apps h s in
    match outcome with
    | None => Ok tt s'
    | Some error =>
        let package_path := frame_file error in
        let install_path := purelib env in
        match relative_to package_path install_path with
        | None => Raise (ValueError "relative_to") s'
        | Some [] => Raise IndexError s'
        | Some (package_name :: _) =>
            Raise (PluginLoadingError package_name (failure_text error)) s'
        end
    end.

(** [apps.app_configs = OrderedDict()] and the four readiness flags set to
    [False]; [apps.clear_cache()] only drops memoised lookups, which this
    model does not keep. *)
Definition wipe_registry (h : Host) : Host :=
  set_ready false (set_loading false (set_models_ready false
    (set_apps_ready false (set_app_configs [] h)))).

Definition _reload_apps (force_reload : bool) : M unit :=
  (if force_reload then
     modify (fun s => set_apps (wipe_registry (apps s)) s) ;;
     _try_reload (populate env)
   else ret tt) ;;
  modify (set_INTEGRATION_PLUGINS_RELOADING true) ;;
  _try_reload (set_installed_apps env) ;;
  modify (set_INTEGRATION_PLUGINS_RELOADING false).

(** [apps.get_app_config(app_name)]: [None] stands for [LookupError]. *)
Definition get_app_config (app_name : string) (h : Host) : option AppConfig :=
  dict_get app_name (app_configs h).

(** The body of the loop of [_reregister_contrib_apps] once the app
    configuration is found.  [app_config] is the registry's own object, so
    it is read again after the models module has been reloaded. *)
Definition reregister_app (app_name : string) (app_config : AppConfig) : M unit :=
  (if models_module app_config && Nat.eqb (List.length (models app_config)) 0
   then modify (fun s => set_apps (reload_models env app_name (apps s)) s)
   else ret tt) ;;
  h <- gets apps ;;
  let app_config' := default app_config (get_app_config app_name h) in
  let model_not_reg :=
    existsb (fun model => negb (is_registered model h)) (models app_config') in
  if model_not_reg && has_admin app_config'
  then modify (fun s => set_apps (reload_admin env app_name (apps s)) s)
  else ret tt.

(** [for plugin_path in ...: try: ... except LookupError: break] *)
Fixpoint reregister_loop (paths : list string) : M unit :=
  match paths with
  | [] => ret tt
  | plugin_path :: rest =>
      let app_name := split_dot_last plugin_path in
      h <- gets apps ;;
      match get_app_config app_name h with
      | None => ret tt
      | Some app_config => reregister_app app_name app_config ;; reregister_loop rest
      end
  end.

Definition _reregister_contrib_apps : M unit :=
  paths <- gets INTEGRATION_APPS_PATHS ;;
  reregister_loop paths.

Definition url_app_name (a : UrlPattern) : option string :=
  match a with
  | AdminUrls _ => Some "admin"
  | PluginUrls _ => Some "plugin"
  | OtherUrls n => n
  end.

Definition _update_urls : M unit :=
  modify (fun s =>
    let h := apps s in
    let fresh a :=
      match url_app_name a with
      | Some n =>
          if String.eqb n "admin" then AdminUrls (admin_registry h)
          else if String.eqb n "plugin" then PluginUrls (dict_keys (INTEGRATION_PLUGINS s))
          else a
      | None => a
      end in
    set_apps (set_urlpatterns (map fresh (urlpatterns h)) h) s).

(** ** Module binder *)

Definition _get_plugin_path (plugin : Instance) : string :=
  match relative_to (path plugin) (BASE_DIR env) with
  | Some parts => join_dot parts
  | None => inst_PLUGIN_NAME plugin
  end.

(** The loop that adds plugin apps; the value is [apps_changed]. *)
Fixpoint add_plugin_apps (plugins : list (string * Instance)) (apps_changed : bool) : M bool :=
  match plugins with
  | [] => ret apps_changed
  | (_, plugin) :: rest =>
      if mixin_enabled "app" plugin then
        let plugin_path := _get_plugin_path plugin in
        installed <- gets INSTALLED_APPS ;;
        if negb (list_in plugin_path installed) then
          modify (fun s => set_INSTALLED_APPS (INSTALLED_APPS s ++ [plugin_path]) s) ;;
          modify (fun s => set_INTEGRATION_APPS_PATHS
                             (INTEGRATION_APPS_PATHS s ++ [plugin_path]) s) ;;
          add_plugin_apps rest true
        else add_plugin_apps rest apps_changed
      else add_plugin_apps rest apps_changed
  end.

Definition activate_integration_app (plugins : list (string * Instance))
    (force_reload : bool) : M unit :=
  if PLUGIN_TESTING env || ENABLE_PLUGINS_APP env then
    apps_changed <- add_plugin_apps plugins false ;;
    if apps_changed || force_reload then
      first_load <- gets INTEGRATION_APPS_LOADING ;;
      (if first_load || force_reload then
         modify (set_INTEGRATION_APPS_LOADING false) ;;
         _reload_apps true
       else ret tt) ;;
      _reload_apps false ;;
      _reregister_contrib_apps ;;
      _update_urls
    else ret tt
  else ret tt.

Definition _activate_plugins (force_reload : bool) : M unit :=
  plugins <- gets INTEGRATION_PLUGINS ;;
  activate_integration_globalsettings plugins ;;
  activate_integration_app plugins force_reload.

(** ** Deactivation *)

(** [admin.site.unregister(model)] raises [NotRegistered] for a model the
    admin site does not hold. *)
Definition admin_unregister (model : Model) : M unit :=
  fun s =>
    let h := apps s in
    if is_registered model h then
      Ok tt (set_apps (set_admin_registry
                         (filter (fun m' => negb (same_model model m')) (admin_registry h)) h) s)
    else Raise (NotRegistered (model_name model)) s.

(** [for model in app_config.get_models(): unregister; models += [name]] *)
Fixpoint unregister_models (todo : list Model) (names : list string) : M (list string) :=
  match todo with
  | [] => ret names
  | model :: rest =>
      admin_unregister model ;;
      unregister_models rest (names ++ [model_name model])
  end.

(** [apps.all_models[plugin_path].pop(model)]: [all_models] is a
    [defaultdict(dict)], so a missing [plugin_path] is first filled with an
    empty dict; popping a missing model raises [KeyError]. *)
Definition all_models_pop (plugin_path model : string) : M unit :=
  fun s =>
    let h := apps s in
    match dict_get plugin_path (all_models h) with
    | None =>
        Raise (KeyError model)
              (set_apps (set_all_models (dict_set plugin_path [] (all_models h)) h) s)
    | Some entry =>
        match dict_get model entry with
        | None => Raise (KeyError model) s
        | Some _ =>
            Ok tt (set_apps (set_all_models
                               (dict_set plugin_path (dict_del model entry) (all_models h)) h) s)
        end
    end.

(** [if models and app_name in apps.all_models: apps.all_models.pop(app_name)] *)
Definition forget_app (names : list string) (app_name : string) : M unit :=
  modify (fun s =>
    let h := apps s in
    if negb (Nat.eqb (List.length names) 0) && dict_has app_name (all_models h)
    then set_apps (set_all_models (dict_del app_name (all_models h)) h) s
    else s).

Fixpoint deactivate_loop (paths : list string) : M unit :=
  match paths with
  | [] => ret tt
  | plugin_path :: rest =>
      let app_name := split_dot_last plugin_path in
      h <- gets apps ;;
      match get_app_config app_name h with
      | None => ret tt
      | Some app_config =>
          names <- unregister_models (models app_config) [] ;;
          for_each (all_models_pop plugin_path) names ;;
          forget_app names app_name ;;
          deactivate_loop rest
      end
  end.

(** [for plugin in tracked: if plugin in installed: installed.remove(plugin)] *)
Definition clean_paths (tracked installed : list string) : list string :=
  fold_left (fun acc plugin => if list_in plugin acc then list_remove plugin acc else acc)
            tracked installed.

Definition _clean_installed_apps : M unit :=
  modify (fun s => set_INSTALLED_APPS
                     (clean_paths (INTEGRATION_APPS_PATHS s) (INSTALLED_APPS s)) s) ;;
  modify (set_INTEGRATION_APPS_PATHS []).

Definition _clean_registry : M unit :=
  modify (set_INTEGRATION_PLUGINS []) ;;
  modify (set_INTEGRATION_PLUGINS_INACTIVE []).

Definition deactivate_integration_app : M unit :=
  paths <- gets INTEGRATION_APPS_PATHS ;;
  deactivate_loop paths ;;
  _clean_installed_apps ;;
  modify (set_INTEGRATION_APPS_LOADED false) ;;
  _reload_apps false ;;
  _update_urls.

Definition _deactivate_plugins : M unit :=
  deactivate_integration_app ;;
  deactivate_integration_globalsettings.

(** ** Public functions *)

(** One turn of the [while] loop of [load_plugins]. *)
Inductive pass_outcome : Type :=
| Registered (s : State)
| Again (blocked_plugin : option string) (s : State)
| Escaped (e : exn) (s : State).

(** The handler [except PluginLoadingError as error]. *)
Definition recover (path message : string) : M unit :=
  log_plugin_error path message "load" ;;
  _clean_registry ;;
  _clean_installed_apps ;;
  _activate_plugins true.

Definition load_pass (blocked_plugin : option string) (s : State) : pass_outcome :=
  match (_init_plugins blocked_plugin ;; _activate_plugins false) s with
  | Ok _ s' => Registered s'
  | Raise e s' =>
      if is_db_error e then Again blocked_plugin s'
      else
        match e with
        | PluginLoadingError path message =>
            match recover path message s' with
            | Ok _ s'' => Again (Some path) s''
            | Raise e' s'' => Escaped e' s''
            end
        | _ => Escaped e s'
        end
  end.

(** [while not registered_sucessfull]; [None] when [fuel] passes were not
    enough. *)
Fixpoint load_loop (fuel : nat) (blocked_plugin : option string) (s : State)
    : option (result unit) :=
  match fuel with
  | O => None
  | S fuel' =>
      match load_pass blocked_plugin s with
      | Registered s' => Some (Ok tt s')
      | Again blocked_plugin' s' => load_loop fuel' blocked_plugin' s'
      | Escaped e s' => Some (Raise e s')
      end
  end.

Definition enter_maintenance (s : State) : State :=
  if maintenance_flag s then s else set_maintenance_flag true s.

Definition leave_maintenance (_maintenance : bool) (s : State) : State :=
  if _maintenance then s else set_maintenance_flag false s.

Definition load_plugins (fuel : nat) (s : State) : option (result unit) :=
  let _maintenance := maintenance_flag s in
  match load_loop fuel None (enter_maintenance s) with
  | None => None
  | Some (Ok _ s') => Some (Ok tt (leave_maintenance _maintenance s'))
  | Some (Raise e s') => Some (Raise e s')
  end.

Definition unload_plugins : M unit :=
  fun s =>
    let _maintenance := maintenance_flag s in
    match (_clean_registry ;; _deactivate_plugins) (enter_maintenance s) with
    | Ok _ s' => Ok tt (leave_maintenance _maintenance s')
    | Raise e s' => Raise e s'
    end.

(** [with maintenance_mode_on():] remembers the flag, sets it, and puts the
    remembered value back on the way out, also when the body raises. *)
Definition reload_plugins (fuel : nat) (s : State) : option (result unit) :=
  let old_value := maintenance_flag s in
  match unload_plugins (set_maintenance_flag true s) with
  | Raise e s' => Some (Raise e (set_maintenance_flag old_value s'))
  | Ok _ s' =>
      match load_plugins fuel s' with
      | None => None
      | Some (Ok _ s'') => Some (Ok tt (set_maintenance_flag old_value s''))
      | Some (Raise e s'') => Some (Raise e (set_maintenance_flag old_value s''))
      end
  end.

End Loader.

(** ** Discovery and start-up *)

(** What [_collect_plugins] reads: the configured plugin directories, the
    test-setup flag, the classes [inventree_plugins.get_plugins] finds in the
    imported module of a directory (or the exception of the import), and the
    outcome of [entry.load()] for each entry point of the group
    [inventree_plugins]. *)
Record Discovery : Type := {
  PLUGIN_DIRS : list string;
  PLUGIN_TESTING_SETUP : bool;
  get_plugins : string -> list PluginClass + exn;
  entry_points : list (PluginClass + exn);
}.

(** [plugin.is_package = True] on a class loaded from an entry point. *)
Definition mark_package (p : PluginClass) : PluginClass :=
  {| __name__ := __name__ p; PLUGIN_NAME := PLUGIN_NAME p; PLUGIN_SLUG := PLUGIN_SLUG p;
     class_is_package := true; construct := construct p |}.

Section Startup.
Variable env : Env.
Variable disc : Discovery.

(** The body of [for plugin in settings.PLUGIN_DIRS]. *)
Definition collect_from_dir (plugin : string) : M unit :=
  match get_plugins disc plugin with
  | inr e => raise e
  | inl modules => modify (fun s => set_PLUGINS (PLUGINS s ++ modules) s)
  end.

(** The body of [for entry in metadata.entry_points().get(...)]. *)
Definition collect_entry (entry : PluginClass + exn) : M unit :=
  match entry with
  | inr e => raise e
  | inl plugin => modify (fun s => set_PLUGINS (PLUGINS s ++ [mark_package plugin]) s)
  end.

Definition _collect_plugins : M unit :=
  for_each collect_from_dir (PLUGIN_DIRS disc) ;;
  if negb (PLUGIN_TESTING env) || (PLUGIN_TESTING env && PLUGIN_TESTING_SETUP disc)
  then for_each collect_entry (entry_points disc)
  else ret tt.

End Startup.

(** [PluginAppConfig.ready]; the module keeps the name apart from the
    registry's [ready] flag. *)
Module PluginAppConfig.
Definition ready (env : Env) (disc : Discovery) (fuel : nat) (s : State)
    : option (result unit) :=
  if negb (INTEGRATION_PLUGINS_RELOADING s) then
    match _collect_plugins env disc s with
    | Ok _ s' => load_plugins env fuel s'
    | Raise e s' => Some (Raise e s')
    end
  else Some (Ok tt s).
End PluginAppConfig.

(** ** Vocabulary of the further properties *)

(** The entries the settings binder tracks for [plugins]: slug and option set
    of every plugin with the [globalsettings] mixin, if the binder's gate is
    open. *)
Definition enabled_items (plugins : list (string * Instance))
    : list (string * list (string * SettingDef)) :=
  map (fun item => (item.1, globalsettingspatterns item.2))
      (filter (fun item => mixin_enabled "globalsettings" item.2 = true) plugins).

Definition declared (env : Env) (plugins : list (string * Instance))
    : list (string * list (string * SettingDef)) :=
  if PLUGIN_TESTING env || ENABLE_PLUGINS_GLOBALSETTING env
  then enabled_items plugins
  else [].

(** The option keys the settings binder puts into the catalog for
    [plugins]. *)
Definition declared_keys (env : Env) (plugins : list (string * Instance)) : list string :=
  dict_keys (collect_settings (declared env plugins)).

(** No record of the plugin table is enabled. *)
Definition none_enabled (d : Database) : Prop := forall r, r ∈ rows d -> active r = false.

(** The registry needs no repair for the app of [path]: if the app is
    configured, its models module, if any, has models loaded, and none of its
    models is missing from the admin site unless the app has no admin
    module. *)
Definition settled (h : Host) (path : string) : Prop :=
  forall app_config,
    get_app_config (split_dot_last path) h = Some app_config ->
    models_module app_config && Nat.eqb (List.length (models app_config)) 0 = false
    /\ existsb (fun model => negb (is_registered model h)) (models app_config)
       && has_admin app_config = false.

(** The plugin class [p] is listed in the registry of [s]: its key is in the
    inactive map, or the slug of its instance is in the active map. *)
Definition accounted (env : Env) (p : PluginClass) (s : State) : Prop :=
  dict_has (plug_key_of env p) (INTEGRATION_PLUGINS_INACTIVE s) = true
  \/ exists i, construct p = inl i /\ dict_has (slug i) (INTEGRATION_PLUGINS s) = true.

(** Every key of the two registry maps of [s] is still a key in [s']. *)
Definition keeps_entries (s s' : State) : Prop :=
  (forall k, dict_has k (INTEGRATION_PLUGINS s) = true ->
             dict_has k (INTEGRATION_PLUGINS s') = true)
  /\ (forall k, dict_has k (INTEGRATION_PLUGINS_INACTIVE s) = true ->
                dict_has k (INTEGRATION_PLUGINS_INACTIVE s') = true).

(** The text has no dot. *)
Fixpoint no_dot (s : string) : bool :=
  match s with
  | EmptyString => true
  | String c s' => negb (Ascii.eqb c "."%char) && no_dot s'
  end.

(** The classes found in the directories [dirs], in order; a directory whose
    import raises contributes none. *)
Definition dir_classes (disc : Discovery) (dirs : list string) : list PluginClass :=
  flat_map (fun d => match get_plugins disc d with inl found => found | inr _ => [] end) dirs.

(** Each of the models [ms] is registered with the admin site of [h], and no
    two of them are the same model. *)
Definition registered_once (ms : list Model) (h : Host) : Prop :=
  NoDup (map (fun m => (app_label m, model_name m)) ms)
  /\ forall m, m ∈ ms -> is_registered m h = true.

(** The registry after [admin.site.unregister(model)]. *)
Definition without (model : Model) (h : Host) : Host :=
  set_admin_registry (filter (fun m' => negb (same_model model m')) (admin_registry h)) h.

(** The table of [s'] has the records of [s], unchanged and in place, and
    possibly new ones after them. *)
Definition records_kept (s s' : State) : Prop :=
  unavailable (database s') = unavailable (database s)
  /\ exists added, rows (database s') = rows (database s) ++ added.

(** ** Vocabulary of the properties *)

(** [m] leaves the view [f] of the state alone, whether it returns or
    raises. *)
Definition preserves {X A : Type} (f : State -> X) (m : M A) : Prop :=
  forall s, f (state_of (m s)) = f s.

(** [P] survives [m], whether it returns or raises. *)
Definition invariant {A : Type} (P : State -> Prop) (m : M A) : Prop :=
  forall s, P s -> P (state_of (m s)).

(** Every exception [m] raises satisfies [Q]. *)
Definition raises_only {A : Type} (Q : exn -> Prop) (m : M A) : Prop :=
  forall s e s', m s = Raise e s' -> Q e.

(** The exception is not one of [OperationalError], [ProgrammingError]. *)
Definition not_db_error (e : exn) : Prop := is_db_error e = false.

(** No two rows of the plugin table share a key. *)
Definition unique_keys (d : Database) : Prop := NoDup (map key (rows d)).

(** A provisioned plugin table: keys and identifiers are unique and every
    identifier in use lies below the next one. *)
Definition well_formed (d : Database) : Prop :=
  unavailable d = None
  /\ unique_keys d
  /\ NoDup (map pk (rows d))
  /\ forall r, r ∈ rows d -> pk r < next_pk d.



Definition pass_state (o : pass_outcome) : State :=
  match o with
  | Registered s => s
  | Again _ s => s
  | Escaped _ s => s
  end.


(** The paths the module binder appends for [plugins] when the host list is
    [installed], in order. *)
Fixpoint new_paths (env : Env) (plugins : list (string * Instance)) (installed : list string)
    : list string :=
  match plugins with
  | [] => []
  | (_, plugin) :: rest =>
      if mixin_enabled "app" plugin then
        let plugin_path := _get_plugin_path env plugin in
        if list_in plugin_path installed then new_paths env rest installed
        else plugin_path :: new_paths env rest (installed ++ [plugin_path])
      else new_paths env rest installed
  end.

(** Every app of [plugins] has its path in [installed]. *)
Definition all_bound (env : Env) (plugins : list (string * Instance))
    (installed : list string) : Prop :=
  forall item, item ∈ plugins -> mixin_enabled "app" item.2 = true ->
               list_in (_get_plugin_path env item.2) installed = true.

Definition app_gate (env : Env) : bool := PLUGIN_TESTING env || ENABLE_PLUGINS_APP env.

(** The app configurations currently in the registry. *)
Definition configs (s : State) : list (string * AppConfig) := app_configs (apps s).


(** ** Concrete installations *)

Module Scenario.

(** Django's [slugify] on ASCII text that neither starts nor ends with an
    underscore: lower case, letters, digits and underscores kept, runs of
    blanks and hyphens turned into one hyphen, none at either end. *)
Definition lower (c : ascii) : ascii :=
  let n := nat_of_ascii c in
  if Nat.leb 65 n && Nat.leb n 90 then ascii_of_nat (n + 32) else c.

Definition is_word (c : ascii) : bool :=
  let n := nat_of_ascii c in
  (Nat.leb 97 n && Nat.leb n 122) || (Nat.leb 48 n && Nat.leb n 57) || Nat.eqb n 95.

Definition is_separator (c : ascii) : bool :=
  let n := nat_of_ascii c in
  Nat.eqb n 32 || Nat.eqb n 45 || Nat.eqb n 9 || Nat.eqb n 10.

Fixpoint slug_from (started pending : bool) (s : string) : string :=
  match s with
  | EmptyString => EmptyString
  | String c s' =>
      let c' := lower c in
      if is_separator c' then slug_from started true s'
      else if is_word c' then
        if started && pending
        then String "-"%char (String c' (slug_from true false s'))
        else String c' (slug_from true false s')
      else slug_from started pending s'
  end.

Definition ascii_slugify (s : string) : string := slug_from false false s.

Definition site_packages : list string := ["/"; "usr"; "lib"; "python3.8"; "site-packages"].
Definition base_dir : list string := ["/"; "home"; "inventree"; "src"; "InvenTree"].

(** A hot swap over a fixed set of importable apps: importing an app listed
    in [broken] raises the exception given there; otherwise the registry
    holds the configuration of every installed app found in [known]. *)
Definition hot_swap (known : list (string * AppConfig)) (broken : list (string * Failure))
    (installed : list string) (h : Host) : Host * option Failure :=
  match List.find (fun a => dict_has a broken) installed with
  | Some a => (h, dict_get a broken)
  | None =>
      let configs :=
        flat_map (fun a => match dict_get a known with
                           | Some c => [(split_dot_last a, c)]
                           | None => []
                           end) installed in
      (set_ready true (set_models_ready true (set_apps_ready true
         (set_app_configs configs h))), None)
  end.

Definition make_env (testing : bool) (known : list (string * AppConfig))
    (broken : list (string * Failure)) : Env :=
  {| PLUGIN_TESTING := testing;
     BASE_DIR := base_dir;
     purelib := site_packages;
     ENABLE_PLUGINS_APP := true;
     ENABLE_PLUGINS_GLOBALSETTING := true;
     new_record_active := false;
     slugify := ascii_slugify;
     populate := hot_swap known broken;
     set_installed_apps := hot_swap known broken;
     reload_models := fun _ h => h;
     reload_admin := fun _ h => h |}.

(** A plugin shipped as the package [package], whose class is [class]. *)
Definition packaged (class plugin_name package : string) (enabled : list string)
    (options : list (string * SettingDef)) : PluginClass :=
  {| __name__ := class;
     PLUGIN_NAME := plugin_name;
     PLUGIN_SLUG := None;
     class_is_package := true;
     construct := inl {| slug := ascii_slugify plugin_name;
                         path := site_packages ++ [package];
                         inst_PLUGIN_NAME := plugin_name;
                         mixins := enabled;
                         globalsettingspatterns := options;
                         is_package := false;
                         inst_pk := None |} |}.

(** The same class with a constructor that raises [e]. *)
Definition failing (e : exn) (p : PluginClass) : PluginClass :=
  {| __name__ := __name__ p; PLUGIN_NAME := PLUGIN_NAME p; PLUGIN_SLUG := PLUGIN_SLUG p;
     class_is_package := class_is_package p; construct := inr e |}.

Definition empty_host : Host :=
  {| app_configs := []; apps_ready := false; models_ready := false; loading := false;
     ready := false; all_models := []; admin_registry := [];
     urlpatterns := [OtherUrls None; OtherUrls (Some "admin"); OtherUrls (Some "plugin")] |}.

Definition empty_database : Database :=
  {| unavailable := None; rows := []; next_pk := 1 |}.

(** A process that has discovered [plugins] and loaded nothing yet. *)
Definition fresh (plugins : list PluginClass) (d : Database) : State :=
  {| PLUGINS := plugins;
     INTEGRATION_PLUGINS := [];
     INTEGRATION_PLUGINS_INACTIVE := [];
     INTEGRATION_PLUGIN_GLOBALSETTING := [];
     INSTALLED_APPS := ["django.contrib.admin"; "plugin"];
     INTEGRATION_APPS_PATHS := [];
     INTEGRATION_APPS_LOADING := true;
     INTEGRATION_APPS_LOADED := false;
     INTEGRATION_PLUGINS_RELOADING := false;
     INTEGRATION_ERRORS := [];
     maintenance_flag := false;
     database := d;
     GLOBAL_SETTINGS := ∅;
     apps := empty_host |}.


Definition plain_config : AppConfig :=
  {| models_module := false; models := []; has_admin := false |}.

(** Two packaged plugins with an app each; importing [bad_app] fails. *)
Definition good_app : PluginClass :=
  packaged "good_app" "good_app" "good_app" ["app"; "globalsettings"] [("GOOD_OPTION", "on")].
Definition bad_app : PluginClass := packaged "bad_app" "bad_app" "bad_app" ["app"] [].

Definition import_error (package : string) : Failure :=
  {| frame_file := site_packages ++ [package; "apps.py"]; failure_text := "ImportError" |}.

Definition testing_env : Env :=
  make_env true [("good_app", plain_config)] [("bad_app", import_error "bad_app")].
Definition production_env : Env :=
  make_env false [("good_app", plain_config)] [("bad_app", import_error "bad_app")].

Definition good_and_bad : State := fresh [good_app; bad_app] empty_database.

(** The plugin table before the first migration. *)
Definition not_ready : Database :=
  {| unavailable := Some OperationalError; rows := []; next_pk := 1 |}.
Definition before_migration : State := fresh [good_app] not_ready.







(** Three plugins without apps; the constructor of the second raises. *)
Definition first_plugin : PluginClass := packaged "first" "first" "first" [] [].
Definition second_plugin : PluginClass :=
  failing (OtherException "RuntimeError") (packaged "second" "second" "second" [] []).
Definition third_plugin : PluginClass := packaged "third" "third" "third" [] [].

Definition enabled_row (n : nat) (k : string) : PluginConfig :=
  {| pk := n; key := k; name := k; active := true |}.

(** A table in which an administrator has enabled the slugs [keys]. *)
Definition enabled (keys : list string) : Database :=
  {| unavailable := None;
     rows := imap (fun i k => enabled_row (S i) k) keys;
     next_pk := S (List.length keys) |}.

Definition faulty_constructor : State :=
  fresh [first_plugin; second_plugin; third_plugin] (enabled ["first"; "second"; "third"]).



(** One plugin whose class is not named after its package. *)
Definition sample : PluginClass := packaged "SamplePlugin" "sample" "sample" ["app"] [].

Definition sample_env : Env := make_env false [] [("sample", import_error "sample")].
Definition one_broken : State := fresh [sample] (enabled ["sample"]).

(** A plugin kept in a directory below [BASE_DIR] whose app fails to
    import; the failing file is the plugin's own. *)
Definition local_dir : list string := base_dir ++ ["plugins"; "local_app"].

Definition local_app : PluginClass :=
  {| __name__ := "LocalApp";
     PLUGIN_NAME := "local_app";
     PLUGIN_SLUG := None;
     class_is_package := false;
     construct := inl {| slug := "local_app"; path := local_dir;
                         inst_PLUGIN_NAME := "local_app"; mixins := ["app"];
                         globalsettingspatterns := []; is_package := false;
                         inst_pk := None |} |}.

Definition local_failure : Failure :=
  {| frame_file := local_dir ++ ["apps.py"]; failure_text := "ImportError" |}.

Definition local_env : Env := make_env false [] [("plugins.local_app", local_failure)].
Definition local_broken : State := fresh [local_app] (enabled ["local_app"]).


(** [good_and_bad] after a load, after unloading that, and after a
    reload. *)
Definition loaded : State :=
  match load_plugins testing_env 3 good_and_bad with
  | Some r => state_of r
  | None => good_and_bad
  end.

(** A registry with the apps [shop] and [later], one model each, both
    registered with the admin site; [ghost] was never loaded. *)
Definition widget : Model := {| app_label := "shop"; model_name := "widget" |}.
Definition ticket : Model := {| app_label := "later"; model_name := "ticket" |}.

Definition shop_host : Host :=
  {| app_configs := [("shop", {| models_module := true; models := [widget]; has_admin := true |});
                     ("later", {| models_module := true; models := [ticket]; has_admin := true |})];
     apps_ready := true; models_ready := true; loading := false; ready := true;
     all_models := [("shop", [("widget", widget)]); ("later", [("ticket", ticket)])];
     admin_registry := [widget; ticket];
     urlpatterns := [OtherUrls (Some "admin"); OtherUrls (Some "plugin")] |}.

Definition shop_state : State :=
  set_apps shop_host
    (set_INTEGRATION_APPS_PATHS ["shop"; "ghost"; "later"]
       (set_INSTALLED_APPS ["django.contrib.admin"; "plugin"; "shop"; "ghost"; "later"]
          (fresh [] empty_database))).

(** Two plugins that share the option [SHARED], with and without the option
    [B] in the catalog. *)
Definition tracked_options : list (string * list (string * SettingDef)) :=
  [("one", [("A", "1"); ("SHARED", "x")]); ("two", [("SHARED", "y"); ("B", "2")])].

Definition options_present : State :=
  set_GLOBAL_SETTINGS (<["CORE" := "c"]> (<["A" := "1"]> (<["SHARED" := "y"]> (<["B" := "2"]> ∅))))
    (set_INTEGRATION_PLUGIN_GLOBALSETTING tracked_options (fresh [] empty_database)).

Definition option_missing : State :=
  set_GLOBAL_SETTINGS (<["CORE" := "c"]> (<["A" := "1"]> (<["SHARED" := "y"]> ∅)))
    (set_INTEGRATION_PLUGIN_GLOBALSETTING tracked_options (fresh [] empty_database)).



(** Nothing discovered, and the plugin table not provisioned. *)
Definition nothing_discovered : State := fresh [] not_ready.

(** [good_and_bad] with the app of [bad_app] already in the module list. *)
Definition bad_installed : State :=
  set_INSTALLED_APPS ["django.contrib.admin"; "plugin"; "bad_app"] good_and_bad.

Definition no_discovery : Discovery :=
  {| PLUGIN_DIRS := []; PLUGIN_TESTING_SETUP := false;
     get_plugins := fun _ => inl []; entry_points := [] |}.

(** [option_missing] after a reload that fails on the missing option. *)
Definition reload_failed : State :=
  match reload_plugins testing_env 1 option_missing with
  | Some r => state_of r
  | None => option_missing
  end.

(** The instances of [local_app] and of [good_app]. *)
Definition local_instance : Instance :=
  {| slug := "local_app"; path := local_dir; inst_PLUGIN_NAME := "local_app";
     mixins := ["app"]; globalsettingspatterns := []; is_package := false;
     inst_pk := None |}.

Definition good_instance : Instance :=
  {| slug := "good_app"; path := site_packages ++ ["good_app"];
     inst_PLUGIN_NAME := "good_app"; mixins := ["app"; "globalsettings"];
     globalsettingspatterns := [("GOOD_OPTION", "on")]; is_package := false;
     inst_pk := None |}.

(** Discovery over two directories, the second of which fails to import,
    and one entry point that fails to load. *)
Definition broken_discovery : Discovery :=
  {| PLUGIN_DIRS := ["plugin.builtin"; "plugin.samples"];
     PLUGIN_TESTING_SETUP := false;
     get_plugins := fun d => if String.eqb d "plugin.builtin" then inl [good_app]
                             else inr (OtherException "ModuleNotFoundError");
     entry_points := [inr (OtherException "ImportError")] |}.

(** Discovery over one directory, with the same entry point. *)
Definition builtin_discovery : Discovery :=
  {| PLUGIN_DIRS := ["plugin.builtin"];
     PLUGIN_TESTING_SETUP := false;
     get_plugins := fun _ => inl [good_app];
     entry_points := [inr (OtherException "ImportError")] |}.

(** The app [plugins.shop], configured under the label [shop] with one
    model that the admin site and the model registry hold under that
    label. *)
Definition dotted_host : Host :=
  {| app_configs := [("shop", {| models_module := true; models := [widget];
                                 has_admin := true |})];
     apps_ready := true; models_ready := true; loading := false; ready := true;
     all_models := [("shop", [("widget", widget)])];
     admin_registry := [widget];
     urlpatterns := [OtherUrls (Some "admin"); OtherUrls (Some "plugin")] |}.

Definition dotted_state : State :=
  set_apps dotted_host
    (set_INTEGRATION_APPS_PATHS ["plugins.shop"]
       (set_INSTALLED_APPS ["django.contrib.admin"; "plugin"; "plugins.shop"]
          (fresh [] empty_database))).

End Scenario.

(** * Properties *)

(** ** Reasoning about the monad *)

Section MonadLemmas.
Context {X : Type} (f : State -> X) (P : State -> Prop).

Lemma preserves_ret {A} (a : A) : preserves f (ret a).
Proof. intros s; reflexivity. Qed.

Lemma preserves_raise {A} (e : exn) : preserves f (@raise A e).
Proof. intros s; reflexivity. Qed.

Lemma preserves_gets {A} (g : State -> A) : preserves f (gets g).
Proof. intros s; reflexivity. Qed.

Lemma preserves_modify (g : State -> State) :
  (forall s, f (g s) = f s) -> preserves f (modify g).
Proof. intros H s; apply H. Qed.

Lemma preserves_bind {A B} (m : M A) (k : A -> M B) :
  preserves f m -> (forall a, preserves f (k a)) -> preserves f (bind m k).
Proof.
  intros Hm Hk s. unfold bind.
  specialize (Hm s). destruct (m s) as [a s'|e s']; simpl in *.
  - rewrite Hk. exact Hm.
  - exact Hm.
Qed.

Lemma preserves_for_each {A} (body : A -> M unit) (l : list A) :
  (forall x, preserves f (body x)) -> preserves f (for_each body l).
Proof.
  intros Hb. induction l as [|x l IH]; simpl.
  - apply preserves_ret.
  - apply preserves_bind; [apply Hb | intros _; exact IH].
Qed.

Lemma invariant_ret {A} (a : A) : invariant P (ret a).
Proof. intros s H; exact H. Qed.

Lemma invariant_raise {A} (e : exn) : invariant P (@raise A e).
Proof. intros s H; exact H. Qed.


Lemma invariant_modify (g : State -> State) :
  (forall s, P s -> P (g s)) -> invariant P (modify g).
Proof. intros H s Hs; apply H, Hs. Qed.

Lemma invariant_bind {A B} (m : M A) (k : A -> M B) :
  invariant P m -> (forall a, invariant P (k a)) -> invariant P (bind m k).
Proof.
  intros Hm Hk s Hs. unfold bind.
  specialize (Hm s Hs). destruct (m s) as [a s'|e s']; simpl in *.
  - apply Hk, Hm.
  - exact Hm.
Qed.

Lemma invariant_for_each {A} (body : A -> M unit) (l : list A) :
  (forall x, invariant P (body x)) -> invariant P (for_each body l).
Proof.
  intros Hb. induction l as [|x l IH]; simpl.
  - apply invariant_ret.
  - apply invariant_bind; [apply Hb | intros _; exact IH].
Qed.

Lemma bind_ok {A B} (m : M A) (k : A -> M B) s a s' :
  m s = Ok a s' -> bind m k s = k a s'.
Proof. intros H. unfold bind. rewrite H. reflexivity. Qed.

Lemma bind_raise {A B} (m : M A) (k : A -> M B) s e s' :
  m s = Raise e s' -> bind m k s = Raise e s'.
Proof. intros H. unfold bind. rewrite H. reflexivity. Qed.

Lemma bind_gets {A B} (g : State -> A) (k : A -> M B) s :
  bind (gets g) k s = k (g s) s.
Proof. reflexivity. Qed.

Lemma bind_modify {B} (g : State -> State) (k : unit -> M B) s :
  bind (modify g) k s = k tt (g s).
Proof. reflexivity. Qed.

Lemma bind_ext_at {A B} (m : M A) (k1 k2 : A -> M B) s :
  (forall a s', m s = Ok a s' -> k1 a s' = k2 a s') -> bind m k1 s = bind m k2 s.
Proof.
  intros H. unfold bind. destruct (m s) as [a s'|e s']; [apply H|]; reflexivity.
Qed.

Lemma preserves_ok {A} (m : M A) s a s' :
  preserves f m -> m s = Ok a s' -> f s' = f s.
Proof. intros Hp Hrun. specialize (Hp s). rewrite Hrun in Hp. exact Hp. Qed.

Lemma bind_Ok_inv {A B} (m : M A) (k : A -> M B) s b s' :
  bind m k s = Ok b s' -> exists a s1, m s = Ok a s1 /\ k a s1 = Ok b s'.
Proof.
  unfold bind. destruct (m s) as [a s1|e s1]; [|discriminate].
  intros H. exists a, s1. auto.
Qed.

(** A property of a preserved view is an invariant. *)
Lemma preserves_invariant {A} (m : M A) (Q : X -> Prop) :
  preserves f m -> invariant (fun s => Q (f s)) m.
Proof. intros H s Hs. rewrite H. exact Hs. Qed.
End MonadLemmas.

(** Steps through a monadic term, leaving the side conditions on writes. *)
Ltac frame_step :=
  lazymatch goal with
  | |- preserves _ (bind _ _) => apply preserves_bind; [| intros ?]
  | |- preserves _ (ret _) => apply preserves_ret
  | |- preserves _ (raise _) => apply preserves_raise
  | |- preserves _ (gets _) => apply preserves_gets
  | |- preserves _ (modify _) => apply preserves_modify; intros ?
  | |- preserves _ (for_each _ _) => apply preserves_for_each; intros ?
  | |- preserves _ (if ?b then _ else _) => destruct b
  | |- preserves _ (match ?x with _ => _ end) => destruct x
  | |- preserves _ (let '(_, _) := ?x in _) => destruct x
  end.

(** ** What each operation writes *)

Section HostFrame.
Variable env : Env.
Context {X : Type} (f : State -> X).
Hypothesis f_apps : forall h s, f (set_apps h s) = f s.
Hypothesis f_reloading : forall b s, f (set_INTEGRATION_PLUGINS_RELOADING b s) = f s.

Lemma preserves_try_reload cmd : preserves f (_try_reload env cmd).
Proof.
  intros s. unfold _try_reload.
  destruct (cmd (INSTALLED_APPS s) (apps s)) as [h [error|]]; simpl.
  - destruct (relative_to (frame_file error) (purelib env)) as [[|pkg rest]|];
      simpl; apply f_apps.
  - apply f_apps.
Qed.

Lemma preserves_reload_apps force_reload : preserves f (_reload_apps env force_reload).
Proof.
  unfold _reload_apps.
  repeat first [apply preserves_try_reload | frame_step]; auto.
Qed.

Lemma preserves_reregister_app app_name app_config :
  preserves f (reregister_app env app_name app_config).
Proof. unfold reregister_app. repeat frame_step; auto. Qed.

Lemma preserves_reregister_loop paths : preserves f (reregister_loop env paths).
Proof.
  induction paths as [|p rest IH]; simpl.
  - apply preserves_ret.
  - repeat first [apply preserves_reregister_app | exact IH | frame_step].
Qed.

Lemma preserves_reregister_contrib_apps : preserves f (_reregister_contrib_apps env).
Proof.
  unfold _reregister_contrib_apps. frame_step; [frame_step|].
  apply preserves_reregister_loop.
Qed.

Lemma preserves_update_urls : preserves f _update_urls.
Proof. unfold _update_urls. frame_step. apply f_apps. Qed.

Lemma preserves_admin_unregister model : preserves f (admin_unregister model).
Proof.
  intros s. unfold admin_unregister.
  destruct (is_registered model (apps s)); simpl; auto.
Qed.

Lemma preserves_unregister_models todo names : preserves f (unregister_models todo names).
Proof.
  revert names. induction todo as [|m rest IH]; intros names; simpl.
  - apply preserves_ret.
  - frame_step; [apply preserves_admin_unregister | apply IH].
Qed.

Lemma preserves_all_models_pop plugin_path model :
  preserves f (all_models_pop plugin_path model).
Proof.
  intros s. unfold all_models_pop.
  destruct (dict_get plugin_path (all_models (apps s))) as [entry|]; simpl; auto.
  destruct (dict_get model entry); simpl; auto.
Qed.

Lemma preserves_forget_app names app_name : preserves f (forget_app names app_name).
Proof.
  unfold forget_app. frame_step.
  match goal with |- f (if ?b then _ else _) = _ => destruct b end; auto.
Qed.

Lemma preserves_deactivate_loop paths : preserves f (deactivate_loop paths).
Proof.
  induction paths as [|p rest IH]; simpl.
  - apply preserves_ret.
  - repeat first [ apply preserves_unregister_models | apply preserves_all_models_pop
                 | apply preserves_forget_app | exact IH | frame_step ].
Qed.
End HostFrame.

Section InitFrame.
Variable env : Env.
Context {X : Type} (f : State -> X).
Hypothesis f_database : forall d s, f (set_database d s) = f s.
Hypothesis f_errors : forall l s, f (set_INTEGRATION_ERRORS l s) = f s.
Hypothesis f_active : forall d s, f (set_INTEGRATION_PLUGINS d s) = f s.
Hypothesis f_inactive : forall d s, f (set_INTEGRATION_PLUGINS_INACTIVE d s) = f s.

Lemma preserves_get_or_create k n : preserves f (get_or_create env k n).
Proof.
  intros s. unfold get_or_create.
  destruct (unavailable (database s)); simpl; auto.
  destruct (find_row k (rows (database s))); simpl; auto.
Qed.

Lemma preserves_resolve_db_setting k n : preserves f (resolve_db_setting env k n).
Proof.
  intros s. unfold resolve_db_setting.
  pose proof (preserves_get_or_create k n s) as H.
  destruct (get_or_create env k n s) as [r s'|e s']; simpl in *; auto.
  destruct (is_db_error e); simpl; auto.
  destruct (PLUGIN_TESTING env); simpl; auto.
Qed.

Lemma preserves_save r : preserves f (save r).
Proof.
  intros s. unfold save. destruct (unavailable (database s)); simpl; auto.
Qed.

Lemma preserves_log_plugin_error i m r : preserves f (log_plugin_error i m r).
Proof. unfold log_plugin_error. frame_step. apply f_errors. Qed.

Lemma preserves_init_with_setting disabled plugin k setting :
  preserves f (init_with_setting env disabled plugin k setting).
Proof.
  unfold init_with_setting.
  repeat first [ apply preserves_save | apply preserves_log_plugin_error | frame_step ];
    auto.
Qed.

Lemma preserves_init_plugin disabled plugin : preserves f (init_plugin env disabled plugin).
Proof.
  unfold init_plugin. frame_step.
  - apply preserves_resolve_db_setting.
  - apply preserves_init_with_setting.
Qed.

Lemma preserves_init_plugins disabled : preserves f (_init_plugins env disabled).
Proof.
  unfold _init_plugins, load_integration_plugins.
  frame_step; [frame_step|]. frame_step. apply preserves_init_plugin.
Qed.

Lemma preserves_clean_registry : preserves f _clean_registry.
Proof. unfold _clean_registry. repeat frame_step; auto. Qed.
End InitFrame.

Section SettingsFrame.
Variable env : Env.
Context {X : Type} (f : State -> X).
Hypothesis f_tracked : forall d s, f (set_INTEGRATION_PLUGIN_GLOBALSETTING d s) = f s.
Hypothesis f_catalog : forall c s, f (set_GLOBAL_SETTINGS c s) = f s.

Lemma preserves_activate_globalsettings plugins :
  preserves f (activate_integration_globalsettings env plugins).
Proof.
  unfold activate_integration_globalsettings, bind_globalsettings.
  repeat frame_step; auto.
Qed.

Lemma preserves_catalog_pop k : preserves f (catalog_pop k).
Proof.
  intros s. unfold catalog_pop. destruct (GLOBAL_SETTINGS s !! k); simpl; auto.
Qed.

Lemma preserves_deactivate_globalsettings :
  preserves f deactivate_integration_globalsettings.
Proof.
  unfold deactivate_integration_globalsettings.
  repeat first [apply preserves_catalog_pop | frame_step]; auto.
Qed.
End SettingsFrame.

Section PathsFrame.
Variable env : Env.
Context {X : Type} (f : State -> X).
Hypothesis f_installed : forall l s, f (set_INSTALLED_APPS l s) = f s.
Hypothesis f_paths : forall l s, f (set_INTEGRATION_APPS_PATHS l s) = f s.

Lemma preserves_add_plugin_apps plugins c : preserves f (add_plugin_apps env plugins c).
Proof.
  revert c. induction plugins as [|[slug plugin] rest IH]; intros c; simpl.
  - apply preserves_ret.
  - repeat first [apply IH | frame_step]; auto.
Qed.

Lemma preserves_clean_installed_apps : preserves f _clean_installed_apps.
Proof. unfold _clean_installed_apps. repeat frame_step; auto. Qed.
End PathsFrame.

(** Closes [preserves f m] for a field [f] that [m] does not write. *)
Ltac frame :=
  repeat first
    [ match goal with
      | |- preserves _ (_try_reload _ _) => apply preserves_try_reload
      | |- preserves _ (_reload_apps _ _) => apply preserves_reload_apps
      | |- preserves _ (_reregister_contrib_apps _) => apply preserves_reregister_contrib_apps
      | |- preserves _ _update_urls => apply preserves_update_urls
      | |- preserves _ (deactivate_loop _) => apply preserves_deactivate_loop
      | |- preserves _ (_init_plugins _ _) => apply preserves_init_plugins
      | |- preserves _ _clean_registry => apply preserves_clean_registry
      | |- preserves _ (log_plugin_error _ _ _) => apply preserves_log_plugin_error
      | |- preserves _ (activate_integration_globalsettings _ _) =>
          apply preserves_activate_globalsettings
      | |- preserves _ deactivate_integration_globalsettings =>
          apply preserves_deactivate_globalsettings
      | |- preserves _ (add_plugin_apps _ _ _) => apply preserves_add_plugin_apps
      | |- preserves _ _clean_installed_apps => apply preserves_clean_installed_apps
      end
    | frame_step
    | progress (intros; simpl)
    | reflexivity ].

Section Composite.
Variable env : Env.

Lemma maintenance_activate_plugins force_reload :
  preserves maintenance_flag (_activate_plugins env force_reload).
Proof. unfold _activate_plugins, activate_integration_app. frame. Qed.

Lemma maintenance_recover p m : preserves maintenance_flag (recover env p m).
Proof.
  unfold recover. repeat (frame_step; [frame|]).
  apply maintenance_activate_plugins.
Qed.

Lemma maintenance_deactivate_plugins :
  preserves maintenance_flag (_deactivate_plugins env).
Proof. unfold _deactivate_plugins, deactivate_integration_app. frame. Qed.
End Composite.

(** ** Maintenance mode *)

Section Maintenance.
Variable env : Env.

Lemma maintenance_init_then_activate b :
  preserves maintenance_flag (_init_plugins env b ;; _activate_plugins env false).
Proof.
  frame_step; [frame | apply maintenance_activate_plugins].
Qed.

Lemma maintenance_load_pass b s :
  maintenance_flag (pass_state (load_pass env b s)) = maintenance_flag s.
Proof.
  unfold load_pass.
  pose proof (maintenance_init_then_activate b s) as H.
  destruct ((_init_plugins env b ;; _activate_plugins env false) s) as [[] s1|e s1];
    simpl in H; [exact H|].
  destruct (is_db_error e) eqn:Hdb; [exact H|].
  destruct e as [| |pth msg| | | | | | |]; simpl; try exact H.
  pose proof (maintenance_recover env pth msg s1) as H'.
  destruct (recover env pth msg s1) as [[] s2|e' s2]; simpl in *; congruence.
Qed.

Lemma maintenance_load_loop fuel :
  forall b s r, load_loop env fuel b s = Some r ->
                maintenance_flag (state_of r) = maintenance_flag s.
Proof.
  induction fuel as [|fuel IH]; intros b s r Hr; simpl in Hr; [discriminate|].
  pose proof (maintenance_load_pass b s) as H.
  destruct (load_pass env b s) as [s'|b' s'|e s']; simpl in H.
  - injection Hr as <-. exact H.
  - rewrite (IH _ _ _ Hr). exact H.
  - injection Hr as <-. exact H.
Qed.

Lemma enter_maintenance_on s : maintenance_flag (enter_maintenance s) = true.
Proof. unfold enter_maintenance. destruct (maintenance_flag s) eqn:E; auto. Qed.





End Maintenance.



(** ** Module binder *)

Section ListFacts.
Lemma list_in_elem x l : list_in x l = true <-> x ∈ l.
Proof.
  induction l as [|y l IH]; simpl.
  - split; [discriminate | intros H; inversion H].
  - destruct (String.eqb_spec x y) as [->|Hne].
    + split; [intros _; apply list_elem_of_here | reflexivity].
    + rewrite IH. split.
      * intros H; apply list_elem_of_further, H.
      * intros H. apply elem_of_cons in H as [H|H]; [contradiction | exact H].
Qed.

Lemma list_in_not_elem x l : list_in x l = false <-> x ∉ l.
Proof.
  rewrite <- list_in_elem. destruct (list_in x l); split; congruence.
Qed.

Lemma occurrences_app x l l' :
  occurrences x (l ++ l') = occurrences x l + occurrences x l'.
Proof.
  induction l as [|y l IH]; simpl; [reflexivity|].
  destruct (String.eqb x y); simpl; rewrite IH; reflexivity.
Qed.

Lemma occurrences_not_elem x l : x ∉ l -> occurrences x l = 0.
Proof.
  induction l as [|y l IH]; simpl; [reflexivity|].
  intros H. apply not_elem_of_cons in H as [Hne Hl].
  destruct (String.eqb_spec x y); [contradiction | apply IH, Hl].
Qed.


End ListFacts.

Section Binder.
Variable env : Env.

Lemma new_paths_fresh plugins :
  forall installed q, q ∈ new_paths env plugins installed -> q ∉ installed.
Proof.
  induction plugins as [|[slug plugin] rest IH]; intros installed q; simpl.
  - intros H; inversion H.
  - destruct (mixin_enabled "app" plugin); [|apply IH].
    destruct (list_in (_get_plugin_path env plugin) installed) eqn:E; [apply IH|].
    intros H. apply elem_of_cons in H as [->|H].
    + apply list_in_not_elem, E.
    + apply IH in H. intros Hq. apply H, elem_of_app. left; exact Hq.
Qed.

Lemma new_paths_NoDup plugins : forall installed, NoDup (new_paths env plugins installed).
Proof.
  induction plugins as [|[slug plugin] rest IH]; intros installed; simpl.
  - apply NoDup_nil_2.
  - destruct (mixin_enabled "app" plugin); [|apply IH].
    destruct (list_in (_get_plugin_path env plugin) installed); [apply IH|].
    apply NoDup_cons_2; [|apply IH].
    intros H. apply new_paths_fresh in H. apply H, elem_of_app. right.
    apply list_elem_of_here.
Qed.

Lemma all_bound_mono plugins installed extra :
  all_bound env plugins installed -> all_bound env plugins (installed ++ extra).
Proof.
  intros H item Hin Happ. apply list_in_elem, elem_of_app. left.
  apply list_in_elem, H; assumption.
Qed.

Lemma new_paths_bound plugins :
  forall installed, all_bound env plugins (installed ++ new_paths env plugins installed).
Proof.
  induction plugins as [|[slug plugin] rest IH]; intros installed; simpl.
  - intros item H; inversion H.
  - intros item Hin Happ. apply elem_of_cons in Hin as [->|Hin]; simpl in *.
    + rewrite Happ.
      destruct (list_in (_get_plugin_path env plugin) installed) eqn:E.
      * apply list_in_elem, elem_of_app. left. apply list_in_elem, E.
      * apply list_in_elem, elem_of_app. right. apply list_elem_of_here.
    + destruct (mixin_enabled "app" plugin); [|apply IH; assumption].
      destruct (list_in (_get_plugin_path env plugin) installed); [apply IH; assumption|].
      specialize (IH (installed ++ [_get_plugin_path env plugin]) item Hin Happ).
      rewrite <- app_assoc in IH. exact IH.
Qed.

Lemma new_paths_nil plugins installed :
  all_bound env plugins installed -> new_paths env plugins installed = [].
Proof.
  revert installed. induction plugins as [|[slug plugin] rest IH]; intros installed H; simpl.
  - reflexivity.
  - assert (Hrest : all_bound env rest installed).
    { intros item Hin. apply H, list_elem_of_further, Hin. }
    destruct (mixin_enabled "app" plugin) eqn:Happ; [|apply IH, Hrest].
    pose proof (H (slug, plugin) (list_elem_of_here _ _) Happ) as Hb.
    simpl in Hb. rewrite Hb. apply IH, Hrest.
Qed.

(** The adding loop never raises and appends exactly [new_paths] to both
    lists. *)
Lemma add_plugin_apps_lists plugins :
  forall c s, exists c' s',
    add_plugin_apps env plugins c s = Ok c' s'
    /\ INSTALLED_APPS s' = INSTALLED_APPS s ++ new_paths env plugins (INSTALLED_APPS s)
    /\ INTEGRATION_APPS_PATHS s'
       = INTEGRATION_APPS_PATHS s ++ new_paths env plugins (INSTALLED_APPS s).
Proof.
  induction plugins as [|[slug plugin] rest IH]; intros c s; simpl.
  - exists c, s. rewrite !app_nil_r. auto.
  - destruct (mixin_enabled "app" plugin); [|apply IH].
    unfold bind at 1, gets at 1.
    destruct (list_in (_get_plugin_path env plugin) (INSTALLED_APPS s)); simpl; [apply IH|].
    unfold bind, modify; simpl.
    match goal with |- context [add_plugin_apps env rest true ?s1] =>
      destruct (IH true s1) as (c' & s' & Hrun & Hi & Hp) end.
    exists c', s'. rewrite Hrun, Hi, Hp; simpl.
    rewrite <- !app_assoc. auto.
Qed.

Lemma preserves_after_binding {X} (f : State -> X) force_reload first_load :
  (forall h s, f (set_apps h s) = f s) ->
  (forall b s, f (set_INTEGRATION_PLUGINS_RELOADING b s) = f s) ->
  (forall b s, f (set_INTEGRATION_APPS_LOADING b s) = f s) ->
  preserves f
    ((if first_load || force_reload
      then modify (set_INTEGRATION_APPS_LOADING false) ;; _reload_apps env true
      else ret tt) ;;
     _reload_apps env false ;; _reregister_contrib_apps env ;; _update_urls).
Proof. intros H1 H2 H3. frame; auto. Qed.

Lemma activate_integration_app_lists plugins force_reload s :
  let s1 := state_of (activate_integration_app env plugins force_reload s) in
  let added := if app_gate env then new_paths env plugins (INSTALLED_APPS s) else [] in
  INSTALLED_APPS s1 = INSTALLED_APPS s ++ added
  /\ INTEGRATION_APPS_PATHS s1 = INTEGRATION_APPS_PATHS s ++ added.
Proof.
  unfold activate_integration_app, app_gate.
  destruct (PLUGIN_TESTING env || ENABLE_PLUGINS_APP env); simpl;
    [|rewrite !app_nil_r; auto].
  destruct (add_plugin_apps_lists plugins false s) as (c & sa & Hrun & Hi & Hp).
  rewrite (bind_ok _ _ _ _ _ Hrun).
  destruct (c || force_reload); simpl; [|auto].
  rewrite bind_gets.
  split.
  - rewrite (preserves_after_binding INSTALLED_APPS force_reload
               (INTEGRATION_APPS_LOADING sa)); auto.
  - rewrite (preserves_after_binding INTEGRATION_APPS_PATHS force_reload
               (INTEGRATION_APPS_LOADING sa)); auto.
Qed.
End Binder.

(** C7. Running the module binder again over the same plugins changes neither
    [INSTALLED_APPS] nor [INTEGRATION_APPS_PATHS], and a run never adds a
    second copy of a path that is already in [INSTALLED_APPS]. *)
Theorem C7_module_binding_idempotent (env : Env) (plugins : list (string * Instance))
    (force_first force_second : bool) (s : State) :
  let s1 := state_of (activate_integration_app env plugins force_first s) in
  let s2 := state_of (activate_integration_app env plugins force_second s1) in
  INSTALLED_APPS s2 = INSTALLED_APPS s1
  /\ INTEGRATION_APPS_PATHS s2 = INTEGRATION_APPS_PATHS s1
  /\ List.length (INSTALLED_APPS s2) = List.length (INSTALLED_APPS s1)
  /\ (forall p, list_in p (INSTALLED_APPS s) = true ->
                occurrences p (INSTALLED_APPS s1) = occurrences p (INSTALLED_APPS s)).
Proof.
  intros s1 s2.
  destruct (activate_integration_app_lists env plugins force_first s) as [Hi1 Hp1].
  destruct (activate_integration_app_lists env plugins force_second s1) as [Hi2 Hp2].
  fold s1 in Hi1, Hp1. fold s2 in Hi2, Hp2.
  assert (Hnil : (if app_gate env then new_paths env plugins (INSTALLED_APPS s1) else []) = []).
  { destruct (app_gate env); [|reflexivity].
    apply new_paths_nil. rewrite Hi1. apply new_paths_bound. }
  rewrite Hnil, app_nil_r in Hi2, Hp2.
  repeat split; try assumption.
  - rewrite Hi2; reflexivity.
  - intros p Hin. rewrite Hi1, occurrences_app.
    destruct (app_gate env); simpl; [|lia].
    rewrite (occurrences_not_elem p (new_paths env plugins (INSTALLED_APPS s))); [lia|].
    intros Hnew. apply new_paths_fresh in Hnew. apply Hnew, list_in_elem, Hin.
Qed.

(** ** Settings binder *)

Section DictFacts.
Context {V : Type}.
Implicit Types d : list (string * V).

Lemma dict_set_keys k v d k' :
  k' ∈ dict_keys (dict_set k v d) <-> k' = k \/ k' ∈ dict_keys d.
Proof.
  induction d as [|[k0 v0] d IH]; simpl.
  - rewrite elem_of_cons. reflexivity.
  - destruct (String.eqb_spec k k0) as [->|Hne]; simpl.
    + rewrite !elem_of_cons. tauto.
    + rewrite !elem_of_cons, IH. tauto.
Qed.

Lemma dict_set_NoDup k v d : NoDup (dict_keys d) -> NoDup (dict_keys (dict_set k v d)).
Proof.
  induction d as [|[k0 v0] d IH]; simpl; intros H.
  - apply NoDup_cons_2; [apply not_elem_of_nil | apply NoDup_nil_2].
  - apply NoDup_cons in H as [Hk0 Hd].
    destruct (String.eqb_spec k k0) as [->|Hne]; simpl.
    + apply NoDup_cons_2; assumption.
    + apply NoDup_cons_2; [|apply IH, Hd].
      intros Hin. apply dict_set_keys in Hin as [->|Hin]; [apply Hne; reflexivity|].
      apply Hk0, Hin.
Qed.

Lemma dict_update_keys other : forall d k',
  k' ∈ dict_keys (dict_update d other) <-> k' ∈ dict_keys d \/ k' ∈ dict_keys other.
Proof.
  unfold dict_update.
  induction other as [|[k v] other IH]; intros d k'; simpl.
  - rewrite elem_of_nil. tauto.
  - rewrite IH, dict_set_keys, elem_of_cons. tauto.
Qed.

Lemma dict_update_NoDup other : forall d,
  NoDup (dict_keys d) -> NoDup (dict_keys (dict_update d other)).
Proof.
  unfold dict_update.
  induction other as [|[k v] other IH]; intros d H; simpl; [exact H|].
  apply IH, dict_set_NoDup, H.
Qed.
End DictFacts.

Section Settings.

Lemma collect_from_keys (tracked : list (string * list (string * SettingDef))) :
  forall (acc : list (string * SettingDef)) k,
  k ∈ dict_keys (fold_left (fun acc item => dict_update acc (snd item)) tracked acc)
  <-> k ∈ dict_keys acc \/ exists item, item ∈ tracked /\ k ∈ dict_keys item.2.
Proof.
  induction tracked as [|item tracked IH]; intros acc k; simpl.
  - split; [auto | intros [H|(i & Hi & _)]; [exact H | inversion Hi]].
  - rewrite IH, dict_update_keys. split.
    + intros [[H|H]|(i & Hi & Hk)]; auto.
      * right. exists item. split; [apply list_elem_of_here | exact H].
      * right. exists i. split; [apply list_elem_of_further, Hi | exact Hk].
    + intros [H|(i & Hi & Hk)]; auto.
      apply elem_of_cons in Hi as [->|Hi]; [auto|].
      right. exists i. auto.
Qed.

Lemma collect_from_NoDup (tracked : list (string * list (string * SettingDef))) :
  forall (acc : list (string * SettingDef)),
  NoDup (dict_keys acc) ->
  NoDup (dict_keys (fold_left (fun acc item => dict_update acc (snd item)) tracked acc)).
Proof.
  induction tracked as [|item tracked IH]; intros acc H; simpl; [exact H|].
  apply IH, dict_update_NoDup, H.
Qed.

Lemma collect_settings_keys tracked k :
  k ∈ dict_keys (collect_settings tracked)
  <-> exists item, item ∈ tracked /\ k ∈ dict_keys item.2.
Proof.
  unfold collect_settings. rewrite collect_from_keys. simpl.
  rewrite elem_of_nil. tauto.
Qed.

Lemma collect_settings_NoDup tracked : NoDup (dict_keys (collect_settings tracked)).
Proof. apply collect_from_NoDup. simpl. apply NoDup_nil_2. Qed.

(** Popping distinct keys that are all present removes exactly them. *)
Lemma pop_all_present keys : forall s,
  NoDup keys ->
  (forall k, k ∈ keys -> is_Some (GLOBAL_SETTINGS s !! k)) ->
  exists s', for_each catalog_pop keys s = Ok tt s'
    /\ INTEGRATION_PLUGIN_GLOBALSETTING s' = INTEGRATION_PLUGIN_GLOBALSETTING s
    /\ forall k, GLOBAL_SETTINGS s' !! k
                 = if decide (k ∈ keys) then None else GLOBAL_SETTINGS s !! k.
Proof.
  induction keys as [|k0 keys IH]; intros s Hnd Hall; simpl.
  - exists s. split; [reflexivity|]. split; [reflexivity|]. intros k.
    destruct (decide (k ∈ [])) as [H|_]; [inversion H | reflexivity].
  - apply NoDup_cons in Hnd as [Hk0 Hnd].
    destruct (Hall k0 (list_elem_of_here _ _)) as [v Hv].
    unfold bind at 1, catalog_pop at 1. rewrite Hv.
    set (s1 := set_GLOBAL_SETTINGS (delete k0 (GLOBAL_SETTINGS s)) s).
    destruct (IH s1 Hnd) as (s' & Hrun & Htr & Hcat).
    { intros k Hk. subst s1; simpl.
      rewrite lookup_delete_ne; [apply Hall, list_elem_of_further, Hk|].
      intros ->. contradiction. }
    exists s'. split; [exact Hrun|]. split; [rewrite Htr; reflexivity|].
    intros k. rewrite Hcat. subst s1; simpl.
    destruct (decide (k ∈ keys)) as [Hin|Hnin].
    + destruct (decide (k ∈ k0 :: keys)) as [_|Hn]; [reflexivity|].
      exfalso. apply Hn, list_elem_of_further, Hin.
    + destruct (decide (k = k0)) as [->|Hne].
      * rewrite lookup_delete_eq.
        destruct (decide (k0 ∈ k0 :: keys)) as [_|Hn]; [reflexivity|].
        exfalso. apply Hn, list_elem_of_here.
      * rewrite lookup_delete_ne by congruence.
        destruct (decide (k ∈ k0 :: keys)) as [Hin|_]; [|reflexivity].
        apply elem_of_cons in Hin as [?|?]; contradiction.
Qed.

(** A key that is missing makes the loop raise [KeyError]. *)
Lemma pop_some_missing keys : forall s,
  (exists k, k ∈ keys /\ GLOBAL_SETTINGS s !! k = None) ->
  exists k s', k ∈ keys /\ for_each catalog_pop keys s = Raise (KeyError k) s'.
Proof.
  induction keys as [|k0 keys IH]; intros s (k & Hk & Hnone).
  - inversion Hk.
  - simpl. unfold bind at 1, catalog_pop at 1.
    destruct (GLOBAL_SETTINGS s !! k0) as [v|] eqn:Hv.
    + apply elem_of_cons in Hk as [->|Hk]; [congruence|].
      destruct (IH (set_GLOBAL_SETTINGS (delete k0 (GLOBAL_SETTINGS s)) s))
        as (k' & s' & Hk' & Hrun).
      { exists k. split; [exact Hk|]. simpl.
        destruct (decide (k = k0)) as [->|Hne];
          [apply lookup_delete_eq | rewrite lookup_delete_ne by congruence; exact Hnone]. }
      exists k', s'. split; [apply list_elem_of_further, Hk' | exact Hrun].
    + exists k0, s. split; [apply list_elem_of_here | reflexivity].
Qed.
End Settings.

(** C10. [deactivate_integration_globalsettings] pops the keys of the union
    of the tracked option sets, each once.  It raises [KeyError] when one of
    them is missing from the catalog; when all are present it returns, the
    catalog has lost exactly those keys and the tracking map is empty. *)
Theorem C10_settings_deactivation (s : State) :
  let tracked := INTEGRATION_PLUGIN_GLOBALSETTING s in
  let keys := dict_keys (collect_settings tracked) in
  NoDup keys
  /\ (forall k, k ∈ keys <-> exists item, item ∈ tracked /\ k ∈ dict_keys item.2)
  /\ ((exists k, k ∈ keys /\ GLOBAL_SETTINGS s !! k = None) ->
      exists k s', k ∈ keys
                   /\ deactivate_integration_globalsettings s = Raise (KeyError k) s')
  /\ ((forall k, k ∈ keys -> is_Some (GLOBAL_SETTINGS s !! k)) ->
      exists s', deactivate_integration_globalsettings s = Ok tt s'
                 /\ INTEGRATION_PLUGIN_GLOBALSETTING s' = []
                 /\ forall k, GLOBAL_SETTINGS s' !! k
                              = if decide (k ∈ keys) then None else GLOBAL_SETTINGS s !! k).
Proof.
  intros tracked keys. split; [apply collect_settings_NoDup|].
  split; [intros k; apply collect_settings_keys|].
  unfold deactivate_integration_globalsettings. rewrite bind_gets. fold tracked keys.
  split.
  - intros Hmiss. destruct (pop_some_missing keys s Hmiss) as (k & s' & Hk & Hrun).
    exists k, s'. split; [exact Hk|]. apply bind_raise, Hrun.
  - intros Hall.
    destruct (pop_all_present keys s (collect_settings_NoDup tracked) Hall)
      as (s' & Hrun & _ & Hcat).
    exists (set_INTEGRATION_PLUGIN_GLOBALSETTING [] s').
    split; [rewrite (bind_ok _ _ _ _ _ Hrun); reflexivity|].
    split; [reflexivity | exact Hcat].
Qed.

(** An instance of C10: two plugins share the option [SHARED]; with every
    option in the catalog the call returns, without [B] it raises. *)
Lemma C10_settings_deactivation_witness :
  (exists s', deactivate_integration_globalsettings Scenario.options_present = Ok tt s'
              /\ INTEGRATION_PLUGIN_GLOBALSETTING s' = []
              /\ GLOBAL_SETTINGS s' !! "SHARED" = None
              /\ GLOBAL_SETTINGS s' !! "CORE" = Some "c")
  /\ (exists k s', deactivate_integration_globalsettings Scenario.option_missing
                   = Raise (KeyError k) s').
Proof.
  split.
  - destruct (proj2 (proj2 (proj2 (C10_settings_deactivation Scenario.options_present))))
      as (s' & Hrun & Htracked & Hcatalog).
    + intros k Hk. vm_compute in Hk.
      repeat (apply elem_of_cons in Hk as [->|Hk]); try (eexists; vm_compute; reflexivity).
      inversion Hk.
    + exists s'. split; [exact Hrun|]. split; [exact Htracked|].
      split; rewrite Hcatalog; vm_compute; reflexivity.
  - destruct (proj1 (proj2 (proj2 (C10_settings_deactivation Scenario.option_missing))))
      as (k & s' & _ & Hrun).
    + exists "B". split; [|vm_compute; reflexivity].
      vm_compute. apply list_elem_of_further, list_elem_of_further, list_elem_of_here.
    + exists k, s'. exact Hrun.
Defined.

(** ** The per-path loops and [LookupError] *)

Section Loops.
Variable env : Env.

Lemma configs_admin_unregister model : preserves configs (admin_unregister model).
Proof.
  intros s. unfold admin_unregister.
  destruct (is_registered model (apps s)); reflexivity.
Qed.

Lemma configs_unregister_models todo : forall names,
  preserves configs (unregister_models todo names).
Proof.
  induction todo as [|m rest IH]; intros names; simpl.
  - apply preserves_ret.
  - apply preserves_bind; [apply configs_admin_unregister | intros _; apply IH].
Qed.

Lemma configs_all_models_pop plugin_path model :
  preserves configs (all_models_pop plugin_path model).
Proof.
  intros s. unfold all_models_pop.
  destruct (dict_get plugin_path (all_models (apps s))) as [entry|]; [|reflexivity].
  destruct (dict_get model entry); reflexivity.
Qed.

Lemma configs_forget_app names app_name : preserves configs (forget_app names app_name).
Proof.
  intros s. unfold forget_app, modify; simpl.
  destruct (negb (Nat.eqb (List.length names) 0) && dict_has app_name (all_models (apps s)));
    reflexivity.
Qed.

Lemma deactivate_loop_breaks before plugin_path after : forall s,
  get_app_config (split_dot_last plugin_path) (apps s) = None ->
  deactivate_loop (before ++ plugin_path :: after) s = deactivate_loop before s.
Proof.
  induction before as [|p0 rest IH]; intros s Hmiss.
  - simpl. rewrite bind_gets, Hmiss. reflexivity.
  - simpl. rewrite !bind_gets.
    destruct (get_app_config (split_dot_last p0) (apps s)) as [app_config|]; [|reflexivity].
    apply bind_ext_at; intros names s1 H1.
    apply bind_ext_at; intros [] s2 H2.
    apply bind_ext_at; intros [] s3 H3.
    apply IH. unfold get_app_config in *.
    apply (preserves_ok configs) in H1; [|apply configs_unregister_models].
    apply (preserves_ok configs) in H2;
      [|apply preserves_for_each; intros; apply configs_all_models_pop].
    apply (preserves_ok configs) in H3; [|apply configs_forget_app].
    unfold configs in *. rewrite H3, H2, H1. exact Hmiss.
Qed.

(** Appending paths after a path whose lookup fails changes nothing. *)
Lemma reregister_loop_breaks before plugin_path after : forall s,
  get_app_config (split_dot_last plugin_path)
                 (apps (state_of (reregister_loop env before s))) = None ->
  reregister_loop env (before ++ plugin_path :: after) s = reregister_loop env before s.
Proof.
  induction before as [|p0 rest IH]; intros s Hmiss.
  - simpl in *. rewrite bind_gets, Hmiss. reflexivity.
  - simpl in *. rewrite !bind_gets in *.
    destruct (get_app_config (split_dot_last p0) (apps s)) as [app_config|]; [|reflexivity].
    apply bind_ext_at; intros [] s1 H1.
    apply IH. rewrite (bind_ok _ _ _ _ _ H1) in Hmiss. exact Hmiss.
Qed.
End Loops.

(** C9. When the lookup of the app configuration of a tracked path fails,
    the loop of [deactivate_integration_app], and likewise the loop of
    [_reregister_contrib_apps], stops there: the paths after it are not
    visited, so the admin registrations and the entries of the model registry
    are those left by the paths before it. *)
Theorem C9_lookup_error_breaks_loop (env : Env) (before after : list string)
    (plugin_path : string) (s : State) :
  get_app_config (split_dot_last plugin_path) (apps s) = None ->
  deactivate_loop (before ++ plugin_path :: after) s = deactivate_loop before s
  /\ deactivate_loop (plugin_path :: after) s = Ok tt s
  /\ reregister_loop env (plugin_path :: after) s = Ok tt s
  /\ (get_app_config (split_dot_last plugin_path)
                     (apps (state_of (reregister_loop env before s))) = None ->
      reregister_loop env (before ++ plugin_path :: after) s = reregister_loop env before s)
  /\ admin_registry (apps (state_of (deactivate_loop (before ++ plugin_path :: after) s)))
     = admin_registry (apps (state_of (deactivate_loop before s)))
  /\ all_models (apps (state_of (deactivate_loop (before ++ plugin_path :: after) s)))
     = all_models (apps (state_of (deactivate_loop before s))).
Proof.
  intros Hmiss.
  pose proof (deactivate_loop_breaks before plugin_path after s Hmiss) as Hd.
  split; [exact Hd|].
  split; [apply (deactivate_loop_breaks [] plugin_path after s Hmiss)|].
  split; [simpl; rewrite bind_gets, Hmiss; reflexivity|].
  split; [apply reregister_loop_breaks|].
  rewrite Hd. split; reflexivity.
Qed.

(** An instance of C9: [ghost] has no app configuration, so [later] keeps
    its admin registration and its entry in the model registry. *)
Lemma C9_lookup_error_breaks_loop_witness :
  deactivate_loop (["shop"] ++ "ghost" :: ["later"]) Scenario.shop_state
  = deactivate_loop ["shop"] Scenario.shop_state
  /\ admin_registry (apps (state_of (deactivate_loop ["shop"; "ghost"; "later"]
                                                     Scenario.shop_state)))
     = [Scenario.ticket].
Proof.
  split.
  - apply (C9_lookup_error_breaks_loop Scenario.testing_env ["shop"] ["later"] "ghost"
             Scenario.shop_state).
    reflexivity.
  - vm_compute. reflexivity.
Defined.

(** ** Load, then unload *)

Section RoundTrip.
Variable env : Env.

Lemma occurrences_list_remove p q l :
  occurrences p (list_remove q l)
  = if String.eqb p q then pred (occurrences p l) else occurrences p l.
Proof.
  induction l as [|y l IH]; simpl.
  - destruct (String.eqb p q); reflexivity.
  - destruct (String.eqb_spec q y) as [->|Hqy].
    + destruct (String.eqb_spec p y); reflexivity.
    + simpl. destruct (String.eqb_spec p y) as [->|Hpy].
      * destruct (String.eqb_spec y q) as [->|_]; [contradiction|].
        rewrite IH. destruct (String.eqb_spec y q); [congruence | reflexivity].
      * exact IH.
Qed.

Lemma occurrences_clean_paths p tracked : forall installed,
  occurrences p (clean_paths tracked installed)
  = occurrences p installed - occurrences p tracked.
Proof.
  unfold clean_paths.
  induction tracked as [|q tracked IH]; intros installed; simpl; [lia|].
  rewrite IH.
  destruct (list_in q installed) eqn:Hin.
  - rewrite occurrences_list_remove. destruct (String.eqb p q); lia.
  - destruct (String.eqb_spec p q) as [->|_]; [|reflexivity].
    apply list_in_not_elem, occurrences_not_elem in Hin. lia.
Qed.

Variable installed0 : list string.








End RoundTrip.



(** ** Which exceptions escape *)

Section Raises.
Variable env : Env.
Context (Q : exn -> Prop).

Lemma raises_only_ret {A} (a : A) : raises_only Q (ret a).
Proof. intros s e s' H; discriminate. Qed.

Lemma raises_only_gets {A} (g : State -> A) : raises_only Q (gets g).
Proof. intros s e s' H; discriminate. Qed.

Lemma raises_only_modify g : raises_only Q (modify g).
Proof. intros s e s' H; discriminate. Qed.

Lemma raises_only_bind {A B} (m : M A) (k : A -> M B) :
  raises_only Q m -> (forall a, raises_only Q (k a)) -> raises_only Q (bind m k).
Proof.
  intros Hm Hk s e s'. unfold bind.
  destruct (m s) as [a s1|e1 s1] eqn:E.
  - apply Hk.
  - intros H; injection H as <- <-. apply (Hm _ _ _ E).
Qed.

Lemma raises_only_for_each {A} (body : A -> M unit) l :
  (forall x, raises_only Q (body x)) -> raises_only Q (for_each body l).
Proof.
  intros Hb. induction l as [|x l IH]; simpl.
  - apply raises_only_ret.
  - apply raises_only_bind; [apply Hb | intros _; exact IH].
Qed.

Hypothesis Q_value : forall m, Q (ValueError m).
Hypothesis Q_index : Q IndexError.
Hypothesis Q_loading : forall p m, Q (PluginLoadingError p m).

Lemma raises_try_reload cmd : raises_only Q (_try_reload env cmd).
Proof.
  intros s e s'. unfold _try_reload.
  destruct (cmd (INSTALLED_APPS s) (apps s)) as [h [error|]]; [|discriminate].
  destruct (relative_to (frame_file error) (purelib env)) as [[|pkg rest]|];
    intros H; injection H as <- _; auto.
Qed.

Lemma raises_reload_apps force_reload : raises_only Q (_reload_apps env force_reload).
Proof.
  unfold _reload_apps.
  apply raises_only_bind; [|intros _].
  { destruct force_reload; [|apply raises_only_ret].
    apply raises_only_bind; [apply raises_only_modify | intros _; apply raises_try_reload]. }
  apply raises_only_bind; [apply raises_only_modify | intros _].
  apply raises_only_bind; [apply raises_try_reload | intros _; apply raises_only_modify].
Qed.

Lemma raises_reregister_loop paths : raises_only Q (reregister_loop env paths).
Proof.
  induction paths as [|p rest IH]; simpl; [apply raises_only_ret|].
  apply raises_only_bind; [apply raises_only_gets | intros h].
  destruct (get_app_config (split_dot_last p) h) as [cfg|]; [|apply raises_only_ret].
  apply raises_only_bind; [|intros _; exact IH].
  unfold reregister_app.
  apply raises_only_bind; [|intros _].
  { destruct (_ && _); [apply raises_only_modify | apply raises_only_ret]. }
  apply raises_only_bind; [apply raises_only_gets | intros h'].
  destruct (_ && _); [apply raises_only_modify | apply raises_only_ret].
Qed.

Lemma raises_add_plugin_apps plugins : forall c, raises_only Q (add_plugin_apps env plugins c).
Proof.
  intros c s e s' H.
  destruct (add_plugin_apps_lists env plugins c s) as (c' & s1 & Hrun & _).
  congruence.
Qed.

Lemma raises_activate_plugins force_reload :
  raises_only Q (_activate_plugins env force_reload).
Proof.
  unfold _activate_plugins.
  apply raises_only_bind; [apply raises_only_gets | intros plugins].
  apply raises_only_bind; [|intros _].
  { unfold activate_integration_globalsettings.
    destruct (_ || _); [|apply raises_only_ret].
    apply raises_only_for_each. intros [slug plugin]. unfold bind_globalsettings.
    destruct (mixin_enabled _ _); [|apply raises_only_ret].
    apply raises_only_bind; [apply raises_only_modify | intros _; apply raises_only_modify]. }
  unfold activate_integration_app.
  destruct (_ || _); [|apply raises_only_ret].
  apply raises_only_bind; [apply raises_add_plugin_apps | intros c].
  destruct (_ || _); [|apply raises_only_ret].
  apply raises_only_bind; [apply raises_only_gets | intros first_load].
  apply raises_only_bind; [|intros _].
  { destruct (_ || _); [|apply raises_only_ret].
    apply raises_only_bind; [apply raises_only_modify | intros _; apply raises_reload_apps]. }
  apply raises_only_bind; [apply raises_reload_apps | intros _].
  apply raises_only_bind; [|intros _; apply raises_only_modify].
  unfold _reregister_contrib_apps.
  apply raises_only_bind; [apply raises_only_gets | intros paths].
  apply raises_reregister_loop.
Qed.

Lemma raises_recover pth msg : raises_only Q (recover env pth msg).
Proof.
  assert (Hmm : forall g1 g2, raises_only Q (modify g1 ;; modify g2)).
  { intros g1 g2. apply raises_only_bind; [|intros _]; apply raises_only_modify. }
  unfold recover.
  apply raises_only_bind; [apply raises_only_modify | intros _].
  apply raises_only_bind; [apply Hmm | intros _].
  apply raises_only_bind; [apply Hmm | intros _].
  apply raises_activate_plugins.
Qed.
End Raises.

(** ** The store is not ready *)

Section NotReady.
Variable env : Env.

Lemma resolve_not_ready_raises k n s e :
  PLUGIN_TESTING env = false -> unavailable (database s) = Some e -> is_db_error e = true ->
  resolve_db_setting env k n s = Raise e s.
Proof.
  intros Ht Hu He. unfold resolve_db_setting, get_or_create. rewrite Hu, He, Ht.
  reflexivity.
Qed.

Lemma resolve_not_ready_testing k n s e :
  PLUGIN_TESTING env = true -> unavailable (database s) = Some e -> is_db_error e = true ->
  resolve_db_setting env k n s = Ok None s.
Proof.
  intros Ht Hu He. unfold resolve_db_setting, get_or_create. rewrite Hu, He, Ht.
  reflexivity.
Qed.

Lemma load_pass_escapes b s e s' :
  load_pass env b s = Escaped e s' -> not_db_error e.
Proof.
  unfold load_pass.
  destruct ((_init_plugins env b ;; _activate_plugins env false) s) as [[] s1|e1 s1];
    [discriminate|].
  destruct (is_db_error e1) eqn:Hdb; [discriminate|].
  destruct e1 as [| |pth msg| | | | | | |];
    try (intros H; injection H as <- _; exact Hdb).
  destruct (recover env pth msg s1) as [[] s2|e2 s2] eqn:Hrec; [discriminate|].
  intros H; injection H as <- _.
  apply (raises_recover env not_db_error) in Hrec; auto; intros; reflexivity.
Qed.

Lemma load_loop_escapes fuel : forall b s e s',
  load_loop env fuel b s = Some (Raise e s') -> not_db_error e.
Proof.
  induction fuel as [|fuel IH]; intros b s e s' H; simpl in H; [discriminate|].
  destruct (load_pass env b s) as [s1|b1 s1|e1 s1] eqn:Hpass.
  - discriminate.
  - apply (IH _ _ _ _ H).
  - injection H as <- _. apply (load_pass_escapes _ _ _ _ Hpass).
Qed.

Lemma load_plugins_escapes fuel s e s' :
  load_plugins env fuel s = Some (Raise e s') -> not_db_error e.
Proof.
  unfold load_plugins.
  destruct (load_loop env fuel None (enter_maintenance s)) as [[[] s1|e1 s1]|] eqn:E;
    try discriminate.
  intros H; injection H as <- _. apply (load_loop_escapes _ _ _ _ _ E).
Qed.
End NotReady.

(** C3, as the code has it.  [load_plugins] never raises [OperationalError]
    or [ProgrammingError] to its caller.  When the store raises its not-ready
    error and the test-mode flag is off, [_init_plugins] stops at that plugin
    and raises the error to [load_plugins]; with the flag on, the record is
    [None] and the plugin is initialised with it. *)
Theorem C3_store_not_ready (env : Env) (e : exn) (s : State)
    (plugin : PluginClass) (rest : list PluginClass) (disabled : option string) :
  (forall fuel e' s', load_plugins env fuel s = Some (Raise e' s') -> not_db_error e')
  /\ (unavailable (database s) = Some e ->
      is_db_error e = true ->
      PLUGINS s = plugin :: rest ->
      (PLUGIN_TESTING env = false ->
         init_plugin env disabled plugin s = Raise e s
         /\ _init_plugins env disabled s = Raise e s)
      /\ (PLUGIN_TESTING env = true ->
            init_plugin env disabled plugin s
            = init_with_setting env disabled plugin (plug_key_of env plugin) None s)).
Proof.
  split; [intros fuel e' s'; apply load_plugins_escapes|].
  intros Hu He Hp. repeat split.
  - unfold init_plugin. apply bind_raise, resolve_not_ready_raises; assumption.
  - unfold _init_plugins, load_integration_plugins. rewrite bind_gets, Hp. simpl.
    apply bind_raise. unfold init_plugin.
    apply bind_raise, resolve_not_ready_raises; assumption.
  - intros Ht. unfold init_plugin.
    apply bind_ok, resolve_not_ready_testing with (e := e); assumption.
Qed.

(** An instance of C3: the plugin table before the first migration, and a
    load that does raise. *)
Lemma C3_store_not_ready_witness :
  init_plugin Scenario.production_env None Scenario.good_app Scenario.before_migration
  = Raise OperationalError Scenario.before_migration
  /\ init_plugin Scenario.testing_env None Scenario.good_app Scenario.before_migration
     = init_with_setting Scenario.testing_env None Scenario.good_app
         (plug_key_of Scenario.testing_env Scenario.good_app) None Scenario.before_migration
  /\ not_db_error (OtherException "RuntimeError").
Proof.
  split; [|split].
  - apply (proj2 (C3_store_not_ready Scenario.production_env OperationalError
                    Scenario.before_migration Scenario.good_app [] None));
      reflexivity.
  - apply (proj2 (C3_store_not_ready Scenario.testing_env OperationalError
                    Scenario.before_migration Scenario.good_app [] None));
      reflexivity.
  - apply (proj1 (C3_store_not_ready Scenario.production_env OperationalError
                    Scenario.faulty_constructor Scenario.good_app [] None)
             1 (OtherException "RuntimeError")
             (pass_state (load_pass Scenario.production_env None
                            (enter_maintenance Scenario.faulty_constructor)))).
    vm_compute. reflexivity.
Defined.

(** Before the first migration and outside test mode, no number of passes
    makes [load_plugins] hand the error to its caller: it never returns. *)
Lemma C3_error_not_propagated :
  PLUGIN_TESTING Scenario.production_env = false
  /\ unavailable (database Scenario.before_migration) = Some OperationalError
  /\ ~ exists fuel r,
         load_plugins Scenario.production_env fuel Scenario.before_migration = Some r.
Proof.
  split; [reflexivity|]. split; [reflexivity|].
  intros (fuel & r & H).
  unfold load_plugins in H.
  assert (Hloop : forall n,
             load_loop Scenario.production_env n None
                       (enter_maintenance Scenario.before_migration) = None).
  { induction n as [|n IH]; [reflexivity|].
    simpl.
    replace (load_pass Scenario.production_env None
                       (enter_maintenance Scenario.before_migration))
      with (Again None (enter_maintenance Scenario.before_migration))
      by (vm_compute; reflexivity).
    exact IH. }
  rewrite Hloop in H. discriminate.
Qed.

(** ** Two plugins, one slug *)

Section Collision.
Variable env : Env.


Lemma find_row_Some k rs r : find_row k rs = Some r -> r ∈ rs /\ key r = k.
Proof.
  unfold find_row. induction rs as [|r0 rs IH]; simpl; [discriminate|].
  destruct (String.eqb_spec (key r0) k) as [E|E].
  - intros H; injection H as <-. split; [apply list_elem_of_here | exact E].
  - intros H. destruct (IH H) as [Hin Hk]. split; [apply list_elem_of_further, Hin | exact Hk].
Qed.


Lemma same_pk_same_row rs r r' :
  NoDup (map pk rs) -> r ∈ rs -> r' ∈ rs -> pk r' = pk r -> r' = r.
Proof.
  induction rs as [|r0 rs IH]; simpl; intros Hnd Hr Hr' Hpk; [inversion Hr|].
  apply NoDup_cons in Hnd as [Hr0 Hnd].
  assert (Hmem : forall x, x ∈ rs -> pk x ∈ map pk rs).
  { intros x Hx. apply list_elem_of_fmap. exists x. auto. }
  apply elem_of_cons in Hr as [->|Hr]; apply elem_of_cons in Hr' as [->|Hr'].
  - reflexivity.
  - exfalso. apply Hr0. rewrite <- Hpk. apply Hmem, Hr'.
  - exfalso. apply Hr0. rewrite Hpk. apply Hmem, Hr.
  - apply IH; assumption.
Qed.




End Collision.

Section Overwrite.
Variable env : Env.

Lemma dict_get_set_eq {V} k (v : V) d : dict_get k (dict_set k v d) = Some v.
Proof.
  induction d as [|[k0 v0] d IH]; simpl.
  - rewrite String.eqb_refl. reflexivity.
  - destruct (String.eqb k k0) eqn:E; simpl; [rewrite String.eqb_refl | rewrite E]; auto.
Qed.



End Overwrite.




(** ** Faults the loop does not absorb *)

Section LoopFacts.
Variable env : Env.


Lemma load_loop_escaped fuel b s e s' :
  load_pass env b s = Escaped e s' ->
  load_loop env (S fuel) b s = Some (Raise e s').
Proof. intros H. simpl. rewrite H. reflexivity. Qed.

Lemma load_plugins_escaped fuel s e s' :
  load_pass env None (enter_maintenance s) = Escaped e s' ->
  load_plugins env (S fuel) s = Some (Raise e s').
Proof.
  intros H. unfold load_plugins. rewrite (load_loop_escaped _ _ _ _ _ H). reflexivity.
Qed.


(** What [_try_reload] raises, by where the failing file lies. *)
Lemma try_reload_below_purelib cmd s h error package rest :
  cmd (INSTALLED_APPS s) (apps s) = (h, Some error) ->
  relative_to (frame_file error) (purelib env) = Some (package :: rest) ->
  _try_reload env cmd s
  = Raise (PluginLoadingError package (failure_text error)) (set_apps h s).
Proof. intros Hc Hr. unfold _try_reload. rewrite Hc, Hr. reflexivity. Qed.

Lemma try_reload_outside_purelib cmd s h error :
  cmd (INSTALLED_APPS s) (apps s) = (h, Some error) ->
  relative_to (frame_file error) (purelib env) = None ->
  _try_reload env cmd s = Raise (ValueError "relative_to") (set_apps h s).
Proof. intros Hc Hr. unfold _try_reload. rewrite Hc, Hr. reflexivity. Qed.
End LoopFacts.

(** C1 at a set of three plugins, the second of which raises in its
    constructor: the exception leaves [load_plugins], the third plugin is
    never initialised, the second is in neither map and maintenance mode stays
    on. *)
Theorem C1_constructor_fault_escapes (fuel : nat) :
  exists s',
    load_plugins Scenario.production_env (S fuel) Scenario.faulty_constructor
    = Some (Raise (OtherException "RuntimeError") s')
    /\ dict_keys (INTEGRATION_PLUGINS s') = ["first"]
    /\ INTEGRATION_PLUGINS_INACTIVE s' = []
    /\ maintenance_flag s' = true.
Proof.
  eexists. split.
  - apply load_plugins_escaped. vm_compute. reflexivity.
  - vm_compute. auto.
Qed.

Section Diverging.
Import Scenario.







End Diverging.


(** C8 at a plugin kept below [BASE_DIR] whose app fails to import: the file
    of the failing frame is not below [purelib], so [_try_reload] raises
    [ValueError] instead of [PluginLoadingError], and [load_plugins], which
    does not catch it, raises it to its caller with nothing logged and
    maintenance mode on. *)
Theorem C8_local_failure_not_wrapped (fuel : nat) :
  relative_to (frame_file Scenario.local_failure) (purelib Scenario.local_env) = None
  /\ (exists s',
        _try_reload Scenario.local_env (populate Scenario.local_env)
          (set_INSTALLED_APPS (INSTALLED_APPS Scenario.local_broken ++ ["plugins.local_app"])
                              Scenario.local_broken)
        = Raise (ValueError "relative_to") s')
  /\ (exists s',
        load_plugins Scenario.local_env (S fuel) Scenario.local_broken
        = Some (Raise (ValueError "relative_to") s')
        /\ INTEGRATION_ERRORS s' = []
        /\ INTEGRATION_PLUGINS_INACTIVE s' = []
        /\ maintenance_flag s' = true).
Proof.
  split; [reflexivity|]. split.
  - eexists. vm_compute. reflexivity.
  - eexists. split; [apply load_plugins_escaped; vm_compute; reflexivity|].
    vm_compute. auto.
Qed.

(** * Further properties of the loader *)

(** ** Cleaning the module list *)

Section CleanPaths.
Lemma list_remove_sublist x l : list_remove x l `sublist_of` l.
Proof.
  induction l as [|y l IH]; simpl; [constructor|].
  destruct (String.eqb x y); [apply sublist_cons; reflexivity | apply sublist_skip, IH].
Qed.

Lemma clean_paths_sublist tracked : forall installed,
  clean_paths tracked installed `sublist_of` installed.
Proof.
  unfold clean_paths.
  induction tracked as [|q tracked IH]; intros installed; simpl; [reflexivity|].
  destruct (list_in q installed); [|apply IH].
  etransitivity; [apply IH | apply list_remove_sublist].
Qed.
End CleanPaths.

(** X1. [_clean_installed_apps] empties the tracking list and takes out of
    [INSTALLED_APPS] one copy of a path for every time it is tracked, as far
    as there are copies: what is left is in its old order, and a path that is
    not tracked keeps all its copies. *)
Theorem X1_clean_installed_apps_effect (s : State) :
  let s' := state_of (_clean_installed_apps s) in
  INTEGRATION_APPS_PATHS s' = []
  /\ INSTALLED_APPS s' `sublist_of` INSTALLED_APPS s
  /\ (forall p, occurrences p (INSTALLED_APPS s')
                = occurrences p (INSTALLED_APPS s) - occurrences p (INTEGRATION_APPS_PATHS s))
  /\ (forall p, p ∉ INTEGRATION_APPS_PATHS s ->
                occurrences p (INSTALLED_APPS s') = occurrences p (INSTALLED_APPS s)).
Proof.
  simpl. split; [reflexivity|]. split; [apply clean_paths_sublist|].
  split; intros p; [apply occurrences_clean_paths|].
  intros Hp. rewrite occurrences_clean_paths, (occurrences_not_elem p _ Hp). lia.
Qed.

(** ** What the module binder appends *)

(** X2. Whether it returns or the reload raises, [activate_integration_app]
    only appends: both [INSTALLED_APPS] and [INTEGRATION_APPS_PATHS] grow by
    the same paths, each of them new to [INSTALLED_APPS] and appended once;
    when the gate is open every app of the given plugins is installed
    afterwards, when it is closed nothing is appended. *)
Theorem X2_activate_app_appends (env : Env) (plugins : list (string * Instance))
    (force_reload : bool) (s : State) :
  let s' := state_of (activate_integration_app env plugins force_reload s) in
  exists added,
    INSTALLED_APPS s' = INSTALLED_APPS s ++ added
    /\ INTEGRATION_APPS_PATHS s' = INTEGRATION_APPS_PATHS s ++ added
    /\ NoDup added
    /\ (forall p, p ∈ added -> p ∉ INSTALLED_APPS s)
    /\ (if app_gate env then all_bound env plugins (INSTALLED_APPS s') else added = []).
Proof.
  intros s'.
  destruct (activate_integration_app_lists env plugins force_reload s) as [Hi Hp].
  fold s' in Hi, Hp.
  exists (if app_gate env then new_paths env plugins (INSTALLED_APPS s) else []).
  split; [exact Hi|]. split; [exact Hp|].
  destruct (app_gate env).
  - split; [apply new_paths_NoDup|]. split; [apply new_paths_fresh|].
    rewrite Hi. apply new_paths_bound.
  - split; [apply NoDup_nil_2|]. split; [|reflexivity].
    intros p Hp'. inversion Hp'.
Qed.

(** ** Recovery after a plugin fault *)


(** ** Nothing discovered *)

(** X4. With no plugin discovered and an empty active registry,
    [load_plugins] returns after one pass and changes nothing: it reads no
    record, so it also returns while the plugin table is not provisioned, and
    it reloads nothing. *)
Theorem X4_load_without_plugins (env : Env) (fuel : nat) (s : State) :
  PLUGINS s = [] ->
  INTEGRATION_PLUGINS s = [] ->
  load_plugins env (S fuel) s = Some (Ok tt s).
Proof.
  intros Hp Ha. destruct s; simpl in Hp, Ha; subst.
  unfold load_plugins, enter_maintenance, leave_maintenance. simpl load_loop.
  unfold load_pass, _init_plugins, _activate_plugins, load_integration_plugins,
    activate_integration_globalsettings, activate_integration_app.
  destruct maintenance_flag0;
    destruct (PLUGIN_TESTING env || ENABLE_PLUGINS_GLOBALSETTING env);
    destruct (PLUGIN_TESTING env || ENABLE_PLUGINS_APP env); reflexivity.
Qed.

(** An instance of X4: before the first migration. *)
Lemma X4_load_without_plugins_witness :
  load_plugins Scenario.production_env 1 Scenario.nothing_discovered
  = Some (Ok tt Scenario.nothing_discovered).
Proof.
  apply (X4_load_without_plugins Scenario.production_env 0 Scenario.nothing_discovered);
    reflexivity.
Defined.

(** ** The reloading flag *)

Section ReloadingFlag.
Variable env : Env.

Lemma reloading_try_reload cmd :
  preserves INTEGRATION_PLUGINS_RELOADING (_try_reload env cmd).
Proof. apply preserves_try_reload. reflexivity. Qed.

Lemma reload_apps_returns force_reload s s' :
  _reload_apps env force_reload s = Ok tt s' -> INTEGRATION_PLUGINS_RELOADING s' = false.
Proof.
  unfold _reload_apps. intros H.
  apply bind_Ok_inv in H as ([] & s1 & _ & H).
  rewrite bind_modify in H.
  apply bind_Ok_inv in H as ([] & s2 & _ & H).
  injection H as <-. reflexivity.
Qed.

Lemma reload_apps_incremental_raises s e s' :
  _reload_apps env false s = Raise e s' -> INTEGRATION_PLUGINS_RELOADING s' = true.
Proof.
  unfold _reload_apps. intros H.
  rewrite (bind_ok _ _ s tt s) in H by reflexivity. rewrite bind_modify in H.
  pose proof (reloading_try_reload (set_installed_apps env)
                (set_INTEGRATION_PLUGINS_RELOADING true s)) as Hp.
  unfold bind in H.
  destruct (_try_reload env (set_installed_apps env)
              (set_INTEGRATION_PLUGINS_RELOADING true s)) as [[] s1|e1 s1];
    [discriminate|].
  injection H as _ <-. exact Hp.
Qed.
End ReloadingFlag.

(** X5. [_reload_apps] has cleared [INTEGRATION_PLUGINS_RELOADING] when it
    returns; when the incremental hot swap raises the flag is left set, and
    from such a state [ready] neither discovers nor loads anything. *)
Theorem X5_reloading_flag (env : Env) (disc : Discovery) (force_reload : bool)
    (s s' : State) (e : exn) (fuel : nat) :
  (_reload_apps env force_reload s = Ok tt s' -> INTEGRATION_PLUGINS_RELOADING s' = false)
  /\ (_reload_apps env false s = Raise e s' ->
      INTEGRATION_PLUGINS_RELOADING s' = true
      /\ PluginAppConfig.ready env disc fuel s' = Some (Ok tt s')).
Proof.
  split; [apply reload_apps_returns|].
  intros H. apply reload_apps_incremental_raises in H.
  split; [exact H|]. unfold PluginAppConfig.ready. rewrite H. reflexivity.
Qed.

(** An instance of X5: a hot swap that returns and one that fails on
    [bad_app]. *)
Lemma X5_reloading_flag_witness :
  INTEGRATION_PLUGINS_RELOADING
    (state_of (_reload_apps Scenario.testing_env true Scenario.good_and_bad)) = false
  /\ INTEGRATION_PLUGINS_RELOADING
       (state_of (_reload_apps Scenario.testing_env false Scenario.bad_installed)) = true.
Proof.
  split.
  - apply (proj1 (X5_reloading_flag Scenario.testing_env Scenario.no_discovery true
                    Scenario.good_and_bad _ OperationalError 0)).
    vm_compute. reflexivity.
  - apply (proj2 (X5_reloading_flag Scenario.testing_env Scenario.no_discovery true
                    Scenario.bad_installed _ (PluginLoadingError "bad_app" "ImportError") 0)).
    vm_compute. reflexivity.
Defined.

(** ** Binding and unbinding settings *)

Section SettingsRoundTrip.
Variable env : Env.

Lemma dict_set_fresh {V} k (v : V) d : k ∉ dict_keys d -> dict_set k v d = d ++ [(k, v)].
Proof.
  induction d as [|[k0 v0] d IH]; simpl; intros H; [reflexivity|].
  apply not_elem_of_cons in H as [Hne Hd].
  destruct (String.eqb_spec k k0); [contradiction|]. rewrite IH by exact Hd. reflexivity.
Qed.

Lemma catalog_update_lookup options : forall catalog k,
  (k ∈ dict_keys options -> is_Some (catalog_update catalog options !! k))
  /\ (k ∉ dict_keys options -> catalog_update catalog options !! k = catalog !! k).
Proof.
  unfold catalog_update.
  induction options as [|[k0 v0] options IH]; intros catalog k; simpl.
  - split; [intros H; inversion H | reflexivity].
  - destruct (IH (<[k0:=v0]> catalog) k) as [IH1 IH2]. split.
    + intros H. destruct (decide (k ∈ dict_keys options)) as [Hin|Hnin]; [auto|].
      apply elem_of_cons in H as [->|H]; [|contradiction].
      rewrite IH2 by exact Hnin. rewrite lookup_insert_eq. eauto.
    + intros H. apply not_elem_of_cons in H as [Hne Hnin].
      rewrite IH2 by exact Hnin. apply lookup_insert_ne. congruence.
Qed.

Lemma enabled_items_slug plugins item :
  item ∈ enabled_items plugins -> item.1 ∈ dict_keys plugins.
Proof.
  unfold enabled_items. intros H.
  apply list_elem_of_fmap in H as (it & -> & Hin).
  apply list_elem_of_filter in Hin as [_ Hin]. simpl.
  apply list_elem_of_fmap. exists it. auto.
Qed.

(** Binding the settings of plugins with distinct, untracked slugs tracks
    one entry per plugin with the mixin and leaves every key that none of
    them declares alone. *)
Lemma bind_all_globalsettings plugins : forall s,
  NoDup (dict_keys plugins) ->
  (forall slug, slug ∈ dict_keys plugins ->
                slug ∉ dict_keys (INTEGRATION_PLUGIN_GLOBALSETTING s)) ->
  exists s', for_each bind_globalsettings plugins s = Ok tt s'
    /\ INTEGRATION_PLUGIN_GLOBALSETTING s'
       = INTEGRATION_PLUGIN_GLOBALSETTING s ++ enabled_items plugins
    /\ (forall k, (exists item, item ∈ enabled_items plugins /\ k ∈ dict_keys item.2) ->
                  is_Some (GLOBAL_SETTINGS s' !! k))
    /\ (forall k, is_Some (GLOBAL_SETTINGS s !! k) -> is_Some (GLOBAL_SETTINGS s' !! k))
    /\ (forall k, (forall item, item ∈ enabled_items plugins -> k ∉ dict_keys item.2) ->
                  GLOBAL_SETTINGS s' !! k = GLOBAL_SETTINGS s !! k).
Proof.
  induction plugins as [|[slug plugin] plugins IH]; intros s Hnd Hfresh.
  - exists s. simpl. rewrite app_nil_r. repeat split; auto.
    intros k (item & Hin & _). inversion Hin.
  - simpl in Hnd. apply NoDup_cons in Hnd as [Hslug Hnd].
    simpl for_each. unfold bind_globalsettings at 1.
    destruct (mixin_enabled "globalsettings" plugin) eqn:Hmix.
    + rewrite (bind_ok _ _ s tt
                 (set_GLOBAL_SETTINGS
                    (catalog_update (GLOBAL_SETTINGS s) (globalsettingspatterns plugin))
                    (set_INTEGRATION_PLUGIN_GLOBALSETTING
                       (dict_set slug (globalsettingspatterns plugin)
                                 (INTEGRATION_PLUGIN_GLOBALSETTING s)) s)))
        by reflexivity.
      match goal with |- context [for_each _ plugins ?t] => set (s1 := t) end.
      assert (Htr : INTEGRATION_PLUGIN_GLOBALSETTING s1
                    = INTEGRATION_PLUGIN_GLOBALSETTING s
                      ++ [(slug, globalsettingspatterns plugin)]).
      { subst s1; simpl. apply dict_set_fresh, Hfresh. simpl. apply list_elem_of_here. }
      destruct (IH s1 Hnd) as (s' & Hrun & Htracked & Hpresent & Hkeep & Hother).
      { intros sl Hsl. rewrite Htr. unfold dict_keys. rewrite map_app. simpl.
        intros Hin. apply elem_of_app in Hin as [Hin|Hin].
        - apply (Hfresh sl); [simpl; apply list_elem_of_further, Hsl | exact Hin].
        - apply list_elem_of_singleton in Hin. subst sl. contradiction. }
      assert (Hitems : enabled_items ((slug, plugin) :: plugins)
                       = (slug, globalsettingspatterns plugin) :: enabled_items plugins).
      { unfold enabled_items. rewrite filter_cons_True by exact Hmix. reflexivity. }
      rewrite Hitems.
      exists s'. split; [exact Hrun|]. split.
      { rewrite Htracked, Htr, <- app_assoc. reflexivity. }
      pose proof (catalog_update_lookup (globalsettingspatterns plugin) (GLOBAL_SETTINGS s))
        as Hupd.
      split; [|split].
      * intros k (item & Hin & Hk).
        apply elem_of_cons in Hin as [->|Hin].
        -- apply Hkeep. subst s1; simpl. apply (Hupd k), Hk.
        -- apply Hpresent. exists item. auto.
      * intros k Hk. apply Hkeep. subst s1; simpl.
        destruct (decide (k ∈ dict_keys (globalsettingspatterns plugin))) as [Hin|Hnin].
        -- apply (Hupd k), Hin.
        -- rewrite (proj2 (Hupd k) Hnin). exact Hk.
      * intros k Hk. rewrite Hother.
        -- subst s1; simpl. apply (Hupd k).
           apply (Hk (slug, globalsettingspatterns plugin)). apply list_elem_of_here.
        -- intros item Hin. apply Hk. apply list_elem_of_further, Hin.
    + assert (Hitems : enabled_items ((slug, plugin) :: plugins) = enabled_items plugins).
      { unfold enabled_items. rewrite filter_cons_False by (simpl; congruence). reflexivity. }
      rewrite Hitems.
      rewrite (bind_ok _ _ s tt s) by reflexivity.
      apply IH; [exact Hnd|].
      intros sl Hsl. apply Hfresh. simpl. apply list_elem_of_further, Hsl.
Qed.
End SettingsRoundTrip.

(** X6. Binding the settings of plugins with distinct slugs, starting with
    nothing tracked, and unbinding them again returns normally: one entry is
    tracked per plugin with the mixin, the unbinding finds every tracked key
    and leaves the tracking map empty.  The catalog ends up as it was, minus
    every key a plugin declared; so it is restored exactly when no plugin
    declared a key the catalog already had, and an entry with such a key is
    lost. *)
Theorem X6_settings_round_trip (env : Env) (plugins : list (string * Instance)) (s : State) :
  NoDup (dict_keys plugins) ->
  INTEGRATION_PLUGIN_GLOBALSETTING s = [] ->
  exists s1 s2,
    activate_integration_globalsettings env plugins s = Ok tt s1
    /\ INTEGRATION_PLUGIN_GLOBALSETTING s1 = declared env plugins
    /\ deactivate_integration_globalsettings s1 = Ok tt s2
    /\ INTEGRATION_PLUGIN_GLOBALSETTING s2 = []
    /\ (forall k, GLOBAL_SETTINGS s2 !! k
                  = if decide (k ∈ declared_keys env plugins) then None
                    else GLOBAL_SETTINGS s !! k)
    /\ ((forall k, k ∈ declared_keys env plugins -> GLOBAL_SETTINGS s !! k = None) ->
        GLOBAL_SETTINGS s2 = GLOBAL_SETTINGS s).
Proof.
  intros Hnd Hempty.
  assert (Hgoal : exists s1 s2,
    activate_integration_globalsettings env plugins s = Ok tt s1
    /\ INTEGRATION_PLUGIN_GLOBALSETTING s1 = declared env plugins
    /\ deactivate_integration_globalsettings s1 = Ok tt s2
    /\ INTEGRATION_PLUGIN_GLOBALSETTING s2 = []
    /\ (forall k, GLOBAL_SETTINGS s2 !! k
                  = if decide (k ∈ declared_keys env plugins) then None
                    else GLOBAL_SETTINGS s !! k)).
  { unfold activate_integration_globalsettings, declared_keys, declared.
    destruct (PLUGIN_TESTING env || ENABLE_PLUGINS_GLOBALSETTING env).
    - destruct (bind_all_globalsettings plugins s Hnd)
        as (s1 & Hrun & Htracked & Hpresent & _ & Hother).
      { intros slug _. rewrite Hempty. apply not_elem_of_nil. }
      rewrite Hempty in Htracked. simpl in Htracked.
      destruct (pop_all_present (dict_keys (collect_settings (enabled_items plugins))) s1)
        as (s2 & Hpop & _ & Hcatalog).
      { apply collect_settings_NoDup. }
      { intros k Hk. apply Hpresent. apply collect_settings_keys, Hk. }
      exists s1, (set_INTEGRATION_PLUGIN_GLOBALSETTING [] s2).
      split; [exact Hrun|]. split; [exact Htracked|]. split.
      { unfold deactivate_integration_globalsettings. rewrite bind_gets, Htracked.
        rewrite (bind_ok _ _ _ _ _ Hpop). reflexivity. }
      split; [reflexivity|].
      intros k. simpl. rewrite Hcatalog.
      destruct (decide (k ∈ dict_keys (collect_settings (enabled_items plugins))))
        as [Hin|Hnin]; [reflexivity|].
      apply Hother. intros item Hitem Hk. apply Hnin, collect_settings_keys.
      exists item. auto.
    - exists s, (set_INTEGRATION_PLUGIN_GLOBALSETTING [] s).
      split; [reflexivity|]. split; [exact Hempty|]. split.
      { unfold deactivate_integration_globalsettings. rewrite bind_gets, Hempty.
        reflexivity. }
      split; [reflexivity|]. intros k. simpl.
      destruct (decide (k ∈ [])) as [Hin|_]; [inversion Hin | reflexivity]. }
  destruct Hgoal as (s1 & s2 & H1 & H2 & H3 & H4 & H5).
  exists s1, s2. repeat (split; [assumption|]).
  intros Hfree. apply map_eq. intros k. rewrite H5.
  destruct (decide (k ∈ declared_keys env plugins)) as [Hin|_]; [|reflexivity].
  symmetry. apply Hfree, Hin.
Qed.

(** An instance of X6: the active plugins of a finished load, bound into an
    untouched catalog. *)
Lemma X6_settings_round_trip_witness :
  exists s1 s2,
    activate_integration_globalsettings Scenario.testing_env
      (INTEGRATION_PLUGINS Scenario.loaded) Scenario.good_and_bad = Ok tt s1
    /\ deactivate_integration_globalsettings s1 = Ok tt s2
    /\ GLOBAL_SETTINGS s2 = GLOBAL_SETTINGS Scenario.good_and_bad.
Proof.
  destruct (X6_settings_round_trip Scenario.testing_env
              (INTEGRATION_PLUGINS Scenario.loaded) Scenario.good_and_bad)
    as (s1 & s2 & H1 & _ & H3 & _ & _ & H6).
  - apply (bool_decide_unpack _). vm_compute. exact I.
  - reflexivity.
  - exists s1, s2. split; [exact H1|]. split; [exact H3|]. apply H6.
    intros k _. apply lookup_empty.
Defined.

(** ** Plugins nobody has enabled *)

Section NotEnabled.
Variable env : Env.
Hypothesis production : PLUGIN_TESTING env = false.
Hypothesis off_by_default : new_record_active env = false.

Lemma dict_has_set_eq {V} k (v : V) d : dict_has k (dict_set k v d) = true.
Proof. unfold dict_has. rewrite dict_get_set_eq. reflexivity. Qed.

Lemma dict_has_set_keep {V} k k' (v : V) d :
  dict_has k d = true -> dict_has k (dict_set k' v d) = true.
Proof.
  unfold dict_has. induction d as [|[k0 v0] d IH]; simpl; [discriminate|].
  destruct (String.eqb_spec k' k0) as [->|Hne]; simpl.
  - destruct (String.eqb k k0); auto.
  - destruct (String.eqb k k0); auto.
Qed.

Lemma init_plugin_not_enabled disabled plugin s :
  unavailable (database s) = None -> none_enabled (database s) ->
  exists s', init_plugin env disabled plugin s = Ok tt s'
    /\ INTEGRATION_PLUGINS s' = INTEGRATION_PLUGINS s
    /\ dict_has (plug_key_of env plugin) (INTEGRATION_PLUGINS_INACTIVE s') = true
    /\ (forall k, dict_has k (INTEGRATION_PLUGINS_INACTIVE s) = true ->
                  dict_has k (INTEGRATION_PLUGINS_INACTIVE s') = true)
    /\ unavailable (database s') = None
    /\ none_enabled (database s').
Proof.
  intros Hav Hoff.
  assert (Hget : exists r s1,
             get_or_create env (plug_key_of env plugin) (PLUGIN_NAME plugin) s = Ok r s1
             /\ active r = false
             /\ INTEGRATION_PLUGINS s1 = INTEGRATION_PLUGINS s
             /\ INTEGRATION_PLUGINS_INACTIVE s1 = INTEGRATION_PLUGINS_INACTIVE s
             /\ unavailable (database s1) = None
             /\ none_enabled (database s1)).
  { unfold get_or_create. rewrite Hav.
    destruct (find_row (plug_key_of env plugin) (rows (database s))) as [r|] eqn:Hfind.
    - exists r, s. apply find_row_Some in Hfind as [Hin _]. repeat split; auto.
    - eexists _, _. split; [reflexivity|]. simpl. repeat split; auto.
      intros r Hr. simpl in Hr. apply elem_of_app in Hr as [Hr|Hr]; [auto|].
      apply list_elem_of_singleton in Hr. subst r. exact off_by_default. }
  destruct Hget as (r & s1 & Hrun & Hr & Ha & Hi & Hav1 & Hoff1).
  eexists. split.
  - unfold init_plugin. rewrite (bind_ok _ _ s (Some r) s1).
    2:{ unfold resolve_db_setting. rewrite Hrun. reflexivity. }
    unfold init_with_setting. rewrite production, Hr. simpl. reflexivity.
  - simpl. rewrite Hi. repeat split; auto.
    + apply dict_has_set_eq.
    + intros k. apply dict_has_set_keep.
Qed.

Lemma init_all_not_enabled disabled plugins : forall s,
  unavailable (database s) = None -> none_enabled (database s) ->
  exists s', for_each (init_plugin env disabled) plugins s = Ok tt s'
    /\ INTEGRATION_PLUGINS s' = INTEGRATION_PLUGINS s
    /\ (forall p, p ∈ plugins ->
                  dict_has (plug_key_of env p) (INTEGRATION_PLUGINS_INACTIVE s') = true)
    /\ (forall k, dict_has k (INTEGRATION_PLUGINS_INACTIVE s) = true ->
                  dict_has k (INTEGRATION_PLUGINS_INACTIVE s') = true)
    /\ none_enabled (database s').
Proof.
  induction plugins as [|p plugins IH]; intros s Hav Hoff.
  - exists s. repeat split; auto. intros p Hp. inversion Hp.
  - destruct (init_plugin_not_enabled disabled p s Hav Hoff)
      as (s1 & Hrun & Ha & Hp & Hkeep & Hav1 & Hoff1).
    destruct (IH s1 Hav1 Hoff1) as (s' & Hrun' & Ha' & Hall & Hkeep' & Hoff').
    exists s'. simpl. rewrite (bind_ok _ _ _ _ _ Hrun).
    split; [exact Hrun'|]. split; [congruence|]. split; [|split; auto].
    intros q Hq. apply elem_of_cons in Hq as [->|Hq]; auto.
Qed.
End NotEnabled.

(** X7. Outside test configuration, with new records disabled by default and
    no record enabled, [_init_plugins] calls no plugin's constructor: whatever
    the constructors would do, it returns, the active registry is unchanged,
    every discovered plugin has its key in the inactive map, and still no
    record is enabled. *)
Theorem X7_not_enabled_not_instantiated (env : Env) (disabled : option string) (s : State) :
  PLUGIN_TESTING env = false ->
  new_record_active env = false ->
  unavailable (database s) = None ->
  none_enabled (database s) ->
  exists s',
    _init_plugins env disabled s = Ok tt s'
    /\ INTEGRATION_PLUGINS s' = INTEGRATION_PLUGINS s
    /\ (forall p, p ∈ PLUGINS s ->
                  dict_has (plug_key_of env p) (INTEGRATION_PLUGINS_INACTIVE s') = true)
    /\ none_enabled (database s').
Proof.
  intros Hprod Hnew Hav Hoff.
  destruct (init_all_not_enabled env Hprod Hnew disabled (PLUGINS s) s Hav Hoff)
    as (s' & Hrun & Ha & Hall & _ & Hoff').
  exists s'. split; [|auto].
  unfold _init_plugins, load_integration_plugins. rewrite bind_gets. exact Hrun.
Qed.

(** An instance of X7: a first start with an empty plugin table, one of the
    three constructors raising. *)
Lemma X7_not_enabled_not_instantiated_witness :
  exists s',
    _init_plugins Scenario.production_env None
      (Scenario.fresh (PLUGINS Scenario.faulty_constructor) Scenario.empty_database)
    = Ok tt s'
    /\ INTEGRATION_PLUGINS s' = [].
Proof.
  destruct (X7_not_enabled_not_instantiated Scenario.production_env None
              (Scenario.fresh (PLUGINS Scenario.faulty_constructor) Scenario.empty_database))
    as (s' & Hrun & Ha & _); try reflexivity.
  - intros r Hr. inversion Hr.
  - exists s'. split; [exact Hrun | exact Ha].
Defined.

(** ** A blocked plugin outside test configuration *)

Section Blocked.
Variable env : Env.

Lemma find_row_saved rs r k :
  NoDup (map pk rs) ->
  find_row k rs = Some r ->
  find_row k (map (fun r' => if Nat.eqb (pk r') (pk (deactivated r)) then deactivated r
                             else r') rs)
  = Some (deactivated r).
Proof.
  intros Hnd Hfind.
  destruct (find_row_Some _ _ _ Hfind) as [Hin Hkey].
  revert Hfind. unfold find_row.
  induction rs as [|r0 rs IH]; simpl; [discriminate|].
  destruct (String.eqb_spec (key r0) k) as [E|E].
  - intros H; injection H as ->. simpl. rewrite Nat.eqb_refl. simpl.
    rewrite E, String.eqb_refl. reflexivity.
  - intros Hfind.
    assert (Hin' : r ∈ rs).
    { apply elem_of_cons in Hin as [->|Hin']; [|exact Hin']. congruence. }
    destruct (Nat.eqb_spec (pk r0) (pk r)) as [Epk|Epk].
    + exfalso. apply E.
      rewrite (same_pk_same_row (r0 :: rs) r r0 Hnd Hin (list_elem_of_here _ _) Epk).
      exact Hkey.
    + simpl. destruct (String.eqb_spec (key r0) k); [contradiction|].
      apply NoDup_cons in Hnd as [_ Hnd]. apply IH; assumption.
Qed.
End Blocked.

(** X8. Outside test configuration, initialising an enabled plugin while it
    is the blocked one does not call its constructor: its record is saved as
    disabled, the record goes into the inactive map and "Disabled" is logged
    under the stage [init].  From then on the plugin is treated as not enabled
    whatever is blocked: initialising it again leaves the active registry and
    the plugin table alone. *)
Theorem X8_blocked_plugin_disabled (env : Env) (s : State) (plugin : PluginClass)
    (r : PluginConfig) (blocked : string) :
  PLUGIN_TESTING env = false ->
  well_formed (database s) ->
  find_row (plug_key_of env plugin) (rows (database s)) = Some r ->
  active r = true ->
  __name__ plugin = blocked ->
  blocked <> "" ->
  let k := plug_key_of env plugin in
  exists s',
    init_plugin env (Some blocked) plugin s = Ok tt s'
    /\ find_row k (rows (database s')) = Some (deactivated r)
    /\ dict_get k (INTEGRATION_PLUGINS_INACTIVE s') = Some (Some (deactivated r))
    /\ INTEGRATION_PLUGINS s' = INTEGRATION_PLUGINS s
    /\ INTEGRATION_ERRORS s' = INTEGRATION_ERRORS s ++ [("init", k, "Disabled")]
    /\ forall later, exists s'',
         init_plugin env later plugin s' = Ok tt s''
         /\ INTEGRATION_PLUGINS s'' = INTEGRATION_PLUGINS s'
         /\ database s'' = database s'.
Proof.
  intros Hprod (Hav & Hkeys & Hpks & Hlt) Hfind Hact Hname Hne k.
  assert (Hget : get_or_create env k (PLUGIN_NAME plugin) s = Ok r s).
  { unfold get_or_create. rewrite Hav. fold k in Hfind. rewrite Hfind. reflexivity. }
  assert (Htruthy : truthy (Some blocked) && String.eqb (__name__ plugin) blocked = true).
  { rewrite Hname, String.eqb_refl. simpl.
    destruct (String.eqb_spec blocked ""); [contradiction | reflexivity]. }
  set (d' := {| unavailable := None;
                rows := map (fun r' => if Nat.eqb (pk r') (pk (deactivated r))
                                       then deactivated r else r') (rows (database s));
                next_pk := next_pk (database s) |}).
  set (s' := set_INTEGRATION_PLUGINS_INACTIVE
               (dict_set k (Some (deactivated r)) (INTEGRATION_PLUGINS_INACTIVE s))
               (set_database d'
                  (set_INTEGRATION_ERRORS
                     (INTEGRATION_ERRORS s ++ [("init", k, "Disabled")]) s))).
  assert (Hfind' : find_row k (rows (database s')) = Some (deactivated r)).
  { apply find_row_saved; assumption. }
  exists s'. split; [|split; [|split; [|split; [|split]]]].
  - unfold init_plugin. rewrite (bind_ok _ _ s (Some r) s).
    2:{ unfold resolve_db_setting. fold k. rewrite Hget. reflexivity. }
    unfold init_with_setting. rewrite Hprod, Hact.
    change (default "" (Some blocked)) with blocked. rewrite Htruthy.
    change (false || true) with true. change (negb false) with true. cbv iota.
    unfold log_plugin_error, save, bind, modify, ret. simpl.
    rewrite Hav. reflexivity.
  - exact Hfind'.
  - apply dict_get_set_eq.
  - reflexivity.
  - reflexivity.
  - intros later.
    assert (Hget' : get_or_create env k (PLUGIN_NAME plugin) s' = Ok (deactivated r) s').
    { unfold get_or_create. rewrite Hfind'. reflexivity. }
    eexists. split; [|split].
    + unfold init_plugin. rewrite (bind_ok _ _ s' (Some (deactivated r)) s').
      2:{ unfold resolve_db_setting. fold k. rewrite Hget'. reflexivity. }
      unfold init_with_setting. rewrite Hprod. reflexivity.
    + reflexivity.
    + reflexivity.
Qed.

(** An instance of X8: the plugin of class [SamplePlugin], enabled, blocked
    under its class name. *)
Lemma X8_blocked_plugin_disabled_witness :
  exists s',
    init_plugin Scenario.sample_env (Some "SamplePlugin") Scenario.sample Scenario.one_broken
    = Ok tt s'
    /\ INTEGRATION_PLUGINS s' = []
    /\ option_map active (find_row "sample" (rows (database s'))) = Some false.
Proof.
  destruct (X8_blocked_plugin_disabled Scenario.sample_env Scenario.one_broken
              Scenario.sample (Scenario.enabled_row 1 "sample") "SamplePlugin")
    as (s' & Hrun & Hrow & _ & Ha & _); try reflexivity.
  - unfold well_formed, unique_keys. simpl. split; [reflexivity|].
    split; [apply NoDup_singleton|]. split; [apply NoDup_singleton|].
    intros r Hr. apply list_elem_of_singleton in Hr. subst r. simpl. lia.
  - discriminate.
  - exists s'. split; [exact Hrun|]. split; [exact Ha|].
    assert (Hk : plug_key_of Scenario.sample_env Scenario.sample = "sample") by reflexivity.
    rewrite Hk in Hrow. rewrite Hrow. reflexivity.
Defined.

(** ** Re-registering models and admin modules *)

(** X9. [_reregister_contrib_apps] reloads nothing and changes nothing when
    the registry needs no repair for any tracked path, whatever reloading a
    module would do. *)
Theorem X9_reregister_settled (env : Env) (s : State) :
  (forall path, path ∈ INTEGRATION_APPS_PATHS s -> settled (apps s) path) ->
  _reregister_contrib_apps env s = Ok tt s.
Proof.
  unfold _reregister_contrib_apps. rewrite bind_gets.
  generalize (INTEGRATION_APPS_PATHS s) as paths.
  induction paths as [|path paths IH]; intros Hall; [reflexivity|].
  simpl. rewrite bind_gets.
  destruct (get_app_config (split_dot_last path) (apps s)) as [app_config|] eqn:Hcfg;
    [|reflexivity].
  destruct (Hall path (list_elem_of_here _ _) app_config Hcfg) as [Hmodels Hadmin].
  assert (Happ : reregister_app env (split_dot_last path) app_config s = Ok tt s).
  { unfold reregister_app. rewrite Hmodels.
    rewrite (bind_ok _ _ s tt s) by reflexivity. rewrite bind_gets, Hcfg.
    cbv zeta. change (default app_config (Some app_config)) with app_config.
    rewrite Hadmin. reflexivity. }
  rewrite (bind_ok _ _ _ _ _ Happ).
  apply IH. intros p Hp. apply Hall, list_elem_of_further, Hp.
Qed.

(** An instance of X9: [shop] and [later] have their models loaded and
    registered, [ghost] is not configured. *)
Lemma X9_reregister_settled_witness :
  _reregister_contrib_apps Scenario.testing_env Scenario.shop_state = Ok tt Scenario.shop_state.
Proof.
  apply X9_reregister_settled.
  intros path Hpath app_config Hcfg.
  vm_compute in Hpath.
  repeat (apply elem_of_cons in Hpath as [->|Hpath]);
    try (vm_compute in Hcfg; injection Hcfg as <-; split; reflexivity);
    try (vm_compute in Hcfg; discriminate).
  inversion Hpath.
Defined.

(** ** Exceptions and the maintenance flag *)

(** X10. [load_plugins] and [unload_plugins] have no handler that restores
    maintenance mode: when either raises, maintenance mode is on afterwards,
    whatever it was before.  [reload_plugins], which runs both under
    [maintenance_mode_on], puts the old value back also when it raises. *)
Theorem X10_maintenance_after_raise (env : Env) (fuel : nat) (s s' : State) (e : exn) :
  (load_plugins env fuel s = Some (Raise e s') -> maintenance_flag s' = true)
  /\ (unload_plugins env s = Raise e s' -> maintenance_flag s' = true)
  /\ (reload_plugins env fuel s = Some (Raise e s') ->
      maintenance_flag s' = maintenance_flag s).
Proof.
  split; [|split].
  - unfold load_plugins. intros H.
    destruct (load_loop env fuel None (enter_maintenance s)) as [[[] s1|e1 s1]|] eqn:E;
      try discriminate.
    injection H as _ <-.
    apply maintenance_load_loop in E. simpl in E. rewrite E. apply enter_maintenance_on.
  - unfold unload_plugins. intros H.
    assert (Hp : preserves maintenance_flag (_clean_registry ;; _deactivate_plugins env)).
    { frame_step; [frame | apply maintenance_deactivate_plugins]. }
    specialize (Hp (enter_maintenance s)).
    destruct ((_clean_registry ;; _deactivate_plugins env) (enter_maintenance s))
      as [[] s1|e1 s1]; [discriminate|].
    injection H as _ <-. simpl in Hp. rewrite Hp. apply enter_maintenance_on.
  - unfold reload_plugins. intros H.
    destruct (unload_plugins env (set_maintenance_flag true s)) as [[] s1|e1 s1].
    + destruct (load_plugins env fuel s1) as [[[] s2|e2 s2]|]; try discriminate.
      injection H as _ <-. reflexivity.
    + injection H as _ <-. reflexivity.
Qed.

(** An instance of X10: a constructor that raises during a load, and a
    tracked option that is missing during an unload and during a reload, all
    three starting with maintenance mode off. *)
Lemma X10_maintenance_after_raise_witness :
  maintenance_flag Scenario.faulty_constructor = false
  /\ maintenance_flag
       (pass_state (load_pass Scenario.production_env None
                      (enter_maintenance Scenario.faulty_constructor))) = true
  /\ maintenance_flag Scenario.option_missing = false
  /\ maintenance_flag (state_of (unload_plugins Scenario.testing_env Scenario.option_missing))
     = true
  /\ maintenance_flag Scenario.reload_failed = false.
Proof.
  split; [reflexivity|]. split; [|split; [reflexivity|split]].
  - apply (proj1 (X10_maintenance_after_raise Scenario.production_env 1
                    Scenario.faulty_constructor _ (OtherException "RuntimeError"))).
    vm_compute. reflexivity.
  - apply (proj1 (proj2 (X10_maintenance_after_raise Scenario.testing_env 1
                           Scenario.option_missing _ (KeyError "B")))).
    vm_compute. reflexivity.
  - apply (proj2 (proj2 (X10_maintenance_after_raise Scenario.testing_env 1
                           Scenario.option_missing Scenario.reload_failed (KeyError "B")))).
    vm_compute. reflexivity.
Defined.

(** X11. [unload_plugins] empties both registry maps before it deactivates
    anything, and nothing it does later writes them: they are empty afterwards
    whether it returns or raises. *)
Theorem X11_unload_empties_registry (env : Env) (s : State) :
  let s' := state_of (unload_plugins env s) in
  INTEGRATION_PLUGINS s' = [] /\ INTEGRATION_PLUGINS_INACTIVE s' = [].
Proof.
  assert (H : forall X (f : State -> X),
             (forall v t, f (set_maintenance_flag v t) = f t) ->
             preserves f (_deactivate_plugins env) ->
             f (state_of (unload_plugins env s))
             = f (set_INTEGRATION_PLUGINS_INACTIVE []
                    (set_INTEGRATION_PLUGINS [] (enter_maintenance s)))).
  { intros X f Hm Hp. unfold unload_plugins.
    specialize (Hp (set_INTEGRATION_PLUGINS_INACTIVE []
                      (set_INTEGRATION_PLUGINS [] (enter_maintenance s)))).
    change ((_clean_registry ;; _deactivate_plugins env) (enter_maintenance s))
      with (_deactivate_plugins env
              (set_INTEGRATION_PLUGINS_INACTIVE []
                 (set_INTEGRATION_PLUGINS [] (enter_maintenance s)))).
    destruct (_deactivate_plugins env _) as [[] s1|e1 s1]; simpl in *; [|exact Hp].
    rewrite <- Hp. unfold leave_maintenance. destruct (maintenance_flag s); auto. }
  intros s'. subst s'. split.
  - rewrite H; [reflexivity | reflexivity |].
    unfold _deactivate_plugins, deactivate_integration_app. frame.
  - rewrite H; [reflexivity | reflexivity |].
    unfold _deactivate_plugins, deactivate_integration_app. frame.
Qed.

(** ** Every plugin is listed *)

Section Accounted.
Variable env : Env.

Lemma keeps_entries_refl s : keeps_entries s s.
Proof. split; auto. Qed.

Lemma keeps_entries_trans s1 s2 s3 :
  keeps_entries s1 s2 -> keeps_entries s2 s3 -> keeps_entries s1 s3.
Proof. intros [A1 I1] [A2 I2]. split; auto. Qed.

Lemma keeps_entries_same s s' :
  INTEGRATION_PLUGINS s' = INTEGRATION_PLUGINS s ->
  INTEGRATION_PLUGINS_INACTIVE s' = INTEGRATION_PLUGINS_INACTIVE s ->
  keeps_entries s s'.
Proof. intros Ha Hi. split; intros k; rewrite ?Ha, ?Hi; auto. Qed.

Lemma accounted_kept p s s' : keeps_entries s s' -> accounted env p s -> accounted env p s'.
Proof.
  intros [Ha Hi] [H|(i & Hc & H)]; [left; auto | right; exists i; auto].
Qed.

Lemma init_with_setting_accounts disabled plugin setting s s' :
  init_with_setting env disabled plugin (plug_key_of env plugin) setting s = Ok tt s' ->
  accounted env plugin s' /\ keeps_entries s s'.
Proof.
  unfold init_with_setting.
  destruct (PLUGIN_TESTING env || match setting with Some r => active r | None => false end).
  - destruct (truthy disabled && String.eqb (__name__ plugin) (default "" disabled)).
    + intros H. apply bind_Ok_inv in H as (st & sa & Hm & H).
      injection H as <-.
      assert (Ha : INTEGRATION_PLUGINS sa = INTEGRATION_PLUGINS s).
      { revert Hm. apply preserves_ok.
        destruct (negb (PLUGIN_TESTING env)); [destruct setting|]; frame_step;
          try (apply preserves_log_plugin_error; reflexivity);
          frame_step; try (apply preserves_save; reflexivity); frame_step. }
      assert (Hi : INTEGRATION_PLUGINS_INACTIVE sa = INTEGRATION_PLUGINS_INACTIVE s).
      { revert Hm. apply preserves_ok.
        destruct (negb (PLUGIN_TESTING env)); [destruct setting|]; frame_step;
          try (apply preserves_log_plugin_error; reflexivity);
          frame_step; try (apply preserves_save; reflexivity); frame_step. }
      split.
      * left. simpl. apply dict_has_set_eq.
      * split; intros k; simpl; rewrite ?Ha, ?Hi; [auto | apply dict_has_set_keep].
    + destruct (construct plugin) as [fresh|e] eqn:Hc; [|discriminate].
      intros H. injection H as <-. split.
      * right. exists fresh. split; [exact Hc|]. simpl. apply dict_has_set_eq.
      * split; intros k; simpl; [apply dict_has_set_keep | auto].
  - intros H. injection H as <-. split.
    + left. simpl. apply dict_has_set_eq.
    + split; intros k; simpl; [auto | apply dict_has_set_keep].
Qed.

Lemma init_plugin_accounts disabled plugin s s' :
  init_plugin env disabled plugin s = Ok tt s' ->
  accounted env plugin s' /\ keeps_entries s s'.
Proof.
  unfold init_plugin. intros H.
  apply bind_Ok_inv in H as (setting & s0 & Hres & H).
  apply init_with_setting_accounts in H as [Hacc Hkeep].
  split; [exact Hacc|].
  apply keeps_entries_trans with s0; [|exact Hkeep].
  apply keeps_entries_same.
  - revert Hres. apply preserves_ok, preserves_resolve_db_setting. reflexivity.
  - revert Hres. apply preserves_ok, preserves_resolve_db_setting. reflexivity.
Qed.

Lemma init_all_accounts disabled plugins : forall s s',
  for_each (init_plugin env disabled) plugins s = Ok tt s' ->
  (forall p, p ∈ plugins -> accounted env p s') /\ keeps_entries s s'.
Proof.
  induction plugins as [|p plugins IH]; intros s s' H.
  - injection H as <-. split; [|apply keeps_entries_refl].
    intros p Hp. inversion Hp.
  - simpl in H. apply bind_Ok_inv in H as ([] & s1 & H1 & H).
    apply init_plugin_accounts in H1 as [Hacc Hkeep1].
    apply IH in H as [Hall Hkeep].
    split; [|apply keeps_entries_trans with s1; assumption].
    intros q Hq. apply elem_of_cons in Hq as [->|Hq]; [|auto].
    apply accounted_kept with s1; assumption.
Qed.
End Accounted.

(** X12. When [_init_plugins] returns, every discovered plugin is listed: its
    key is in the inactive map or the slug of its instance is in the active
    map.  It removes nothing: every key the two maps had before is still
    there, so entries of an earlier load stay until something clears the
    registry. *)
Theorem X12_init_lists_every_plugin (env : Env) (disabled : option string) (s s' : State) :
  _init_plugins env disabled s = Ok tt s' ->
  (forall p, p ∈ PLUGINS s -> accounted env p s') /\ keeps_entries s s'.
Proof.
  unfold _init_plugins, load_integration_plugins. rewrite bind_gets.
  apply init_all_accounts.
Qed.

(** An instance of X12: [good_app] and [bad_app] under test configuration. *)
Lemma X12_init_lists_every_plugin_witness :
  accounted Scenario.testing_env Scenario.bad_app
    (state_of (_init_plugins Scenario.testing_env (Some "bad_app") Scenario.good_and_bad))
  /\ accounted Scenario.testing_env Scenario.good_app
       (state_of (_init_plugins Scenario.testing_env (Some "bad_app") Scenario.good_and_bad)).
Proof.
  destruct (X12_init_lists_every_plugin Scenario.testing_env (Some "bad_app")
              Scenario.good_and_bad
              (state_of (_init_plugins Scenario.testing_env (Some "bad_app")
                           Scenario.good_and_bad))) as [Hall _].
  - vm_compute. reflexivity.
  - split; apply Hall; simpl.
    + apply list_elem_of_further, list_elem_of_here.
    + apply list_elem_of_here.
Defined.

(** ** From plugin path to app name *)

Section AppName.
Lemma last_component_after_dot a : forall cur b,
  last_component_from cur (a ++ String "."%char b)%string = last_component_from "" b.
Proof.
  induction a as [|c a IH]; intros cur b; simpl; [reflexivity|].
  destruct (Ascii.eqb c "."%char); apply IH.
Qed.

Lemma string_app_nil_r (a : string) : (a ++ "")%string = a.
Proof. induction a as [|c a IH]; [reflexivity|]. cbv [String.append]. f_equal. exact IH. Qed.

Lemma string_app_snoc (a : string) c b :
  ((a ++ String c "") ++ b)%string = (a ++ String c b)%string.
Proof. induction a as [|c' a IH]; [reflexivity|]. cbv [String.append]. f_equal. exact IH. Qed.

Lemma last_component_no_dot x : forall cur,
  no_dot x = true -> last_component_from cur x = (cur ++ x)%string.
Proof.
  induction x as [|c x IH]; intros cur H; simpl in *.
  - symmetry. apply string_app_nil_r.
  - apply andb_true_iff in H as [Hc Hx].
    destruct (Ascii.eqb c "."%char); [discriminate|].
    rewrite IH by exact Hx. apply string_app_snoc.
Qed.

Lemma split_dot_last_join parts x :
  no_dot x = true -> split_dot_last (join_dot (parts ++ [x])) = x.
Proof.
  intros Hx. unfold split_dot_last, join_dot.
  induction parts as [|p parts IH]; simpl.
  - apply (last_component_no_dot x "" Hx).
  - destruct (parts ++ [x]) as [|y rest] eqn:E.
    + destruct parts; discriminate.
    + rewrite <- E in *.
      change (p ++ "." ++ String.concat "." (parts ++ [x]))%string
        with (p ++ String "."%char (String.concat "." (parts ++ [x])))%string.
      rewrite last_component_after_dot. exact IH.
Qed.
End AppName.

(** X13. The app name under which [deactivate_integration_app] and
    [_reregister_contrib_apps] look a plugin up is the text after the last dot
    of the path [_get_plugin_path] gives.  For a plugin kept below [BASE_DIR]
    in a directory whose name has no dot this is the directory name; for any
    other plugin whose [PLUGIN_NAME] has no dot it is [PLUGIN_NAME]; and a
    plugin kept in [BASE_DIR] itself has the empty path. *)
Theorem X13_app_name_of_plugin (env : Env) (plugin : Instance)
    (parents : list string) (dir : string) :
  (relative_to (path plugin) (BASE_DIR env) = Some (parents ++ [dir]) ->
   no_dot dir = true ->
   split_dot_last (_get_plugin_path env plugin) = dir)
  /\ (relative_to (path plugin) (BASE_DIR env) = None ->
      no_dot (inst_PLUGIN_NAME plugin) = true ->
      split_dot_last (_get_plugin_path env plugin) = inst_PLUGIN_NAME plugin)
  /\ (path plugin = BASE_DIR env -> _get_plugin_path env plugin = "").
Proof.
  unfold _get_plugin_path. split; [|split].
  - intros -> Hdir. apply split_dot_last_join, Hdir.
  - intros -> Hname. apply (last_component_no_dot _ "" Hname).
  - intros ->.
    assert (H : forall p, relative_to p p = Some []).
    { induction p as [|c p IH]; simpl; [reflexivity|]. rewrite String.eqb_refl. exact IH. }
    rewrite H. reflexivity.
Qed.

(** An instance of X13: a plugin in [BASE_DIR/plugins/local_app] and a
    packaged one. *)
Lemma X13_app_name_of_plugin_witness :
  split_dot_last (_get_plugin_path Scenario.local_env Scenario.local_instance) = "local_app"
  /\ split_dot_last (_get_plugin_path Scenario.testing_env Scenario.good_instance)
     = "good_app".
Proof.
  split.
  - apply (proj1 (X13_app_name_of_plugin Scenario.local_env Scenario.local_instance
                    ["plugins"] "local_app")); reflexivity.
  - apply (proj1 (proj2 (X13_app_name_of_plugin Scenario.testing_env Scenario.good_instance
                           [] ""))); reflexivity.
Defined.

(** ** Discovery *)

Section Discovering.
Variable env : Env.
Variable disc : Discovery.

Lemma collect_dirs dirs : forall s,
  (forall d, d ∈ dirs -> exists found, get_plugins disc d = inl found) ->
  exists s', for_each (collect_from_dir disc) dirs s = Ok tt s'
    /\ PLUGINS s' = PLUGINS s ++ dir_classes disc dirs
    /\ maintenance_flag s' = maintenance_flag s
    /\ INTEGRATION_PLUGINS s' = INTEGRATION_PLUGINS s
    /\ INTEGRATION_PLUGINS_RELOADING s' = INTEGRATION_PLUGINS_RELOADING s.
Proof.
  induction dirs as [|d dirs IH]; intros s Hall.
  - exists s. simpl. rewrite app_nil_r. auto.
  - destruct (Hall d (list_elem_of_here _ _)) as [found Hd].
    destruct (IH (set_PLUGINS (PLUGINS s ++ found) s)) as (s' & Hrun & Hp & Hm & Ha & Hr).
    { intros d' Hd'. apply Hall, list_elem_of_further, Hd'. }
    exists s'. simpl. unfold collect_from_dir at 1, dir_classes. simpl flat_map.
    rewrite Hd, bind_modify. split; [exact Hrun|].
    rewrite Hp. simpl. rewrite <- app_assoc. auto.
Qed.

Lemma for_each_app {A} (body : A -> M unit) l1 l2 s :
  for_each body (l1 ++ l2) s = bind (for_each body l1) (fun _ => for_each body l2) s.
Proof.
  revert s. induction l1 as [|x l1 IH]; intros s; simpl; [reflexivity|].
  unfold bind. destruct (body x s) as [[] s1|e s1]; [exact (IH s1) | reflexivity].
Qed.
End Discovering.

(** X14. A plugin directory whose import raises ends discovery with that
    exception: the classes of the directories before it are already appended
    to [settings.PLUGINS], no entry point is loaded, and [ready] raises the
    same exception without loading a plugin or touching maintenance mode.
    When every directory imports, under test configuration without
    [PLUGIN_TESTING_SETUP], the entry points are not loaded at all, so one that
    would fail to load does no harm. *)
Theorem X14_discovery_failure (env : Env) (disc : Discovery) (s : State)
    (before after : list string) (d : string) (e : exn) :
  (PLUGIN_DIRS disc = before ++ d :: after ->
   (forall d', d' ∈ before -> exists found, get_plugins disc d' = inl found) ->
   get_plugins disc d = inr e ->
   exists s',
     _collect_plugins env disc s = Raise e s'
     /\ PLUGINS s' = PLUGINS s ++ dir_classes disc before
     /\ maintenance_flag s' = maintenance_flag s
     /\ INTEGRATION_PLUGINS s' = INTEGRATION_PLUGINS s
     /\ (INTEGRATION_PLUGINS_RELOADING s = false ->
         forall fuel, PluginAppConfig.ready env disc fuel s = Some (Raise e s')))
  /\ ((forall d', d' ∈ PLUGIN_DIRS disc -> exists found, get_plugins disc d' = inl found) ->
      PLUGIN_TESTING env = true ->
      PLUGIN_TESTING_SETUP disc = false ->
      exists s',
        _collect_plugins env disc s = Ok tt s'
        /\ PLUGINS s' = PLUGINS s ++ dir_classes disc (PLUGIN_DIRS disc)).
Proof.
  split.
  - intros Hdirs Hbefore Hd.
    destruct (collect_dirs disc before s Hbefore) as (s' & Hrun & Hp & Hm & Ha & Hr).
    exists s'.
    assert (Hc : _collect_plugins env disc s = Raise e s').
    { unfold _collect_plugins. apply bind_raise. rewrite Hdirs, for_each_app.
      rewrite (bind_ok _ _ _ _ _ Hrun). simpl. apply bind_raise.
      unfold collect_from_dir. rewrite Hd. reflexivity. }
    repeat (split; [assumption|]).
    intros Hflag fuel. unfold PluginAppConfig.ready. rewrite Hflag, Hc. reflexivity.
  - intros Hall Ht Hsetup.
    destruct (collect_dirs disc (PLUGIN_DIRS disc) s Hall) as (s' & Hrun & Hp & _).
    exists s'. split; [|exact Hp].
    unfold _collect_plugins. rewrite (bind_ok _ _ _ _ _ Hrun), Ht, Hsetup. reflexivity.
Qed.

(** An instance of X14: the second directory fails to import; and one
    directory with an entry point that would fail to load. *)
Lemma X14_discovery_failure_witness :
  (exists s',
     PluginAppConfig.ready Scenario.testing_env Scenario.broken_discovery 1
       Scenario.nothing_discovered
     = Some (Raise (OtherException "ModuleNotFoundError") s')
     /\ PLUGINS s' = [Scenario.good_app])
  /\ (exists s',
        _collect_plugins Scenario.testing_env Scenario.builtin_discovery
          Scenario.nothing_discovered = Ok tt s'
        /\ PLUGINS s' = [Scenario.good_app]).
Proof.
  split.
  - destruct (proj1 (X14_discovery_failure Scenario.testing_env Scenario.broken_discovery
                       Scenario.nothing_discovered ["plugin.builtin"] [] "plugin.samples"
                       (OtherException "ModuleNotFoundError")))
      as (s' & _ & Hp & _ & _ & Hready); try reflexivity.
    + intros d' Hd'. apply list_elem_of_singleton in Hd'. subst d'.
      eexists. reflexivity.
    + exists s'. split; [apply Hready; reflexivity | exact Hp].
  - destruct (proj2 (X14_discovery_failure Scenario.testing_env Scenario.builtin_discovery
                       Scenario.nothing_discovered [] [] "" OperationalError))
      as (s' & Hrun & Hp); try reflexivity.
    + intros d' _. eexists. reflexivity.
    + exists s'. split; [exact Hrun | exact Hp].
Defined.

(** ** Deactivating an app whose path has a dot *)

Section Unregister.
Lemma existsb_elem {A} (f : A -> bool) l :
  existsb f l = true <-> exists x, x ∈ l /\ f x = true.
Proof.
  induction l as [|y l IH]; simpl.
  - split; [discriminate | intros (x & Hx & _); inversion Hx].
  - rewrite orb_true_iff, IH. split.
    + intros [H|(x & Hx & H)]; [exists y | exists x]; split; auto;
        [apply list_elem_of_here | apply list_elem_of_further, Hx].
    + intros (x & Hx & H). apply elem_of_cons in Hx as [->|Hx]; [auto|].
      right. exists x. auto.
Qed.

Lemma same_model_spec a b :
  same_model a b = true <-> (app_label a, model_name a) = (app_label b, model_name b).
Proof.
  unfold same_model. rewrite andb_true_iff, !String.eqb_eq. split.
  - intros [-> ->]. reflexivity.
  - intros H. injection H as -> ->. auto.
Qed.

Lemma without_self model h : is_registered model (without model h) = false.
Proof.
  unfold is_registered, without. simpl.
  destruct (existsb _ _) eqn:E; [|reflexivity].
  apply existsb_elem in E as (x & Hx & Hsame).
  apply list_elem_of_filter in Hx as [Hneg _]. rewrite Hsame in Hneg. contradiction.
Qed.

Lemma without_absent model q h :
  is_registered q h = false -> is_registered q (without model h) = false.
Proof.
  unfold is_registered, without. simpl. intros H.
  destruct (existsb (same_model q) (filter _ _)) eqn:E; [|reflexivity].
  apply existsb_elem in E as (x & Hx & Hsame).
  apply list_elem_of_filter in Hx as [_ Hx].
  assert (existsb (same_model q) (admin_registry h) = true) by (apply existsb_elem; eauto).
  congruence.
Qed.

Lemma without_other model q h :
  (app_label model, model_name model) <> (app_label q, model_name q) ->
  is_registered q h = true -> is_registered q (without model h) = true.
Proof.
  unfold is_registered, without. simpl. intros Hne H.
  apply existsb_elem in H as (x & Hx & Hsame).
  apply existsb_elem. exists x. split; [|exact Hsame].
  apply list_elem_of_filter. split; [|exact Hx].
  destruct (same_model model x) eqn:E; [|exact I].
  exfalso. apply Hne. apply same_model_spec in E, Hsame. congruence.
Qed.

(** Unregistering models that are registered, each once, succeeds and
    writes nothing but the admin registry. *)
Lemma unregister_all ms : forall names s,
  registered_once ms (apps s) ->
  exists s1,
    unregister_models ms names s = Ok (names ++ map model_name ms) s1
    /\ all_models (apps s1) = all_models (apps s)
    /\ INSTALLED_APPS s1 = INSTALLED_APPS s
    /\ INTEGRATION_APPS_PATHS s1 = INTEGRATION_APPS_PATHS s
    /\ (forall m, m ∈ ms -> is_registered m (apps s1) = false)
    /\ (forall q, is_registered q (apps s) = false -> is_registered q (apps s1) = false).
Proof.
  induction ms as [|m ms IH]; intros names s [Hnd Hreg].
  - exists s. simpl. rewrite app_nil_r. repeat split; auto.
    intros m Hm. inversion Hm.
  - simpl in Hnd. apply NoDup_cons in Hnd as [Hm Hnd].
    set (s' := set_apps (without m (apps s)) s).
    assert (Hun : admin_unregister m s = Ok tt s').
    { unfold admin_unregister. rewrite (Hreg m (list_elem_of_here _ _)). reflexivity. }
    destruct (IH (names ++ [model_name m]) s') as (s1 & Hrun & Hall & Hi & Hp & Hgone & Hkeep).
    { split; [exact Hnd|]. intros q Hq. subst s'; simpl. apply without_other.
      - intros Heq. apply Hm. rewrite Heq.
        apply (list_elem_of_fmap_2 (fun m => (app_label m, model_name m))), Hq.
      - apply Hreg, list_elem_of_further, Hq. }
    exists s1. simpl. rewrite (bind_ok _ _ _ _ _ Hun), Hrun, <- app_assoc.
    split; [reflexivity|]. split; [exact Hall|]. split; [exact Hi|]. split; [exact Hp|].
    split.
    + intros q Hq. apply elem_of_cons in Hq as [->|Hq]; [|auto].
      apply Hkeep. subst s'; simpl. apply without_self.
    + intros q Hq. apply Hkeep. subst s'; simpl. apply without_absent, Hq.
Qed.
End Unregister.

(** X15. [deactivate_integration_app] pops the models of an app from
    [apps.all_models] under the whole plugin path, not under the app name it
    looked the configuration up with.  When the registry has no entry under
    the whole path and the app has registered models, the call raises
    [KeyError] for the first model: by then the models are unregistered from
    the admin site and [all_models] has gained an empty entry for the path,
    but [INSTALLED_APPS] and the tracking list are not cleaned. *)
Theorem X15_deactivate_keyerror (env : Env) (s : State) (path : string) (rest : list string)
    (app_config : AppConfig) (m : Model) (ms : list Model) :
  INTEGRATION_APPS_PATHS s = path :: rest ->
  get_app_config (split_dot_last path) (apps s) = Some app_config ->
  models app_config = m :: ms ->
  registered_once (models app_config) (apps s) ->
  dict_get path (all_models (apps s)) = None ->
  exists s',
    deactivate_integration_app env s = Raise (KeyError (model_name m)) s'
    /\ INSTALLED_APPS s' = INSTALLED_APPS s
    /\ INTEGRATION_APPS_PATHS s' = INTEGRATION_APPS_PATHS s
    /\ (forall model, model ∈ models app_config -> is_registered model (apps s') = false)
    /\ dict_get path (all_models (apps s')) = Some [].
Proof.
  intros Hpaths Hcfg Hmodels Hreg Hmissing.
  destruct (unregister_all (models app_config) [] s Hreg)
    as (s1 & Hrun & Hall & Hi & Hp & Hgone & _).
  set (s' := set_apps (set_all_models (dict_set path [] (all_models (apps s1))) (apps s1)) s1).
  exists s'. split; [|split; [|split; [|split]]].
  - unfold deactivate_integration_app. rewrite bind_gets, Hpaths.
    apply bind_raise. simpl. rewrite bind_gets, Hcfg.
    rewrite (bind_ok _ _ _ _ _ Hrun). apply bind_raise.
    rewrite Hmodels. simpl. apply bind_raise.
    unfold all_models_pop. rewrite <- Hall in Hmissing. rewrite Hmissing. reflexivity.
  - exact Hi.
  - exact Hp.
  - exact Hgone.
  - simpl. apply dict_get_set_eq.
Qed.

(** An instance of X15: the app [plugins.shop], configured and registered
    under the label [shop]. *)
Lemma X15_deactivate_keyerror_witness :
  exists s',
    deactivate_integration_app Scenario.testing_env Scenario.dotted_state
    = Raise (KeyError "widget") s'
    /\ INSTALLED_APPS s' = INSTALLED_APPS Scenario.dotted_state.
Proof.
  destruct (X15_deactivate_keyerror Scenario.testing_env Scenario.dotted_state
              "plugins.shop" []
              {| models_module := true; models := [Scenario.widget]; has_admin := true |}
              Scenario.widget [])
    as (s' & Hrun & Hi & _); try reflexivity.
  - split; [apply NoDup_singleton|].
    intros model Hmodel. apply list_elem_of_singleton in Hmodel. subst model. reflexivity.
  - exists s'. split; [exact Hrun | exact Hi].
Defined.

(** ** Nothing new to bind *)

Section NothingNew.
Variable env : Env.

Lemma add_plugin_apps_bound plugins : forall c s,
  all_bound env plugins (INSTALLED_APPS s) ->
  add_plugin_apps env plugins c s = Ok c s.
Proof.
  induction plugins as [|[slug plugin] plugins IH]; intros c s Hall; [reflexivity|].
  assert (Hrest : all_bound env plugins (INSTALLED_APPS s)).
  { intros item Hin. apply Hall, list_elem_of_further, Hin. }
  simpl. destruct (mixin_enabled "app" plugin) eqn:Happ; [|apply IH, Hrest].
  rewrite bind_gets.
  pose proof (Hall (slug, plugin) (list_elem_of_here _ _) Happ) as Hin. simpl in Hin.
  rewrite Hin. simpl. apply IH, Hrest.
Qed.
End NothingNew.

(** X16. When every app of the given plugins is already in [INSTALLED_APPS]
    and no reload is forced, [activate_integration_app] returns without a hot
    swap: the state, and with it the app registry, is exactly as before. *)
Theorem X16_no_reload_without_change (env : Env) (plugins : list (string * Instance))
    (s : State) :
  all_bound env plugins (INSTALLED_APPS s) ->
  activate_integration_app env plugins false s = Ok tt s.
Proof.
  intros Hall. unfold activate_integration_app.
  destruct (PLUGIN_TESTING env || ENABLE_PLUGINS_APP env); [|reflexivity].
  rewrite (bind_ok _ _ _ _ _ (add_plugin_apps_bound env plugins false s Hall)).
  reflexivity.
Qed.

(** An instance of X16: binding the active plugins of a finished load
    again. *)
Lemma X16_no_reload_without_change_witness :
  activate_integration_app Scenario.testing_env (INTEGRATION_PLUGINS Scenario.loaded) false
    Scenario.loaded
  = Ok tt Scenario.loaded.
Proof.
  apply X16_no_reload_without_change.
  intros item Hitem Happ. vm_compute in Hitem.
  apply list_elem_of_singleton in Hitem. subst item. reflexivity.
Defined.

(** ** Records under test configuration *)

Section TestRecords.
Variable env : Env.
Hypothesis testing : PLUGIN_TESTING env = true.

Lemma records_kept_refl s : records_kept s s.
Proof. split; [reflexivity|]. exists []. rewrite app_nil_r. reflexivity. Qed.

Lemma records_kept_trans s1 s2 s3 :
  records_kept s1 s2 -> records_kept s2 s3 -> records_kept s1 s3.
Proof.
  intros [U1 (a1 & H1)] [U2 (a2 & H2)]. split; [congruence|].
  exists (a1 ++ a2). rewrite H2, H1, app_assoc. reflexivity.
Qed.

Lemma records_kept_database s s' : database s' = database s -> records_kept s s'.
Proof. intros H. unfold records_kept. rewrite H. apply records_kept_refl. Qed.

Lemma records_kept_get_or_create k n s :
  records_kept s (state_of (get_or_create env k n s)).
Proof.
  unfold get_or_create.
  destruct (unavailable (database s)) eqn:Hav; [apply records_kept_refl|].
  destruct (find_row k (rows (database s))); [apply records_kept_refl|].
  split; [simpl; congruence|]. eexists. reflexivity.
Qed.

Lemma records_kept_init_plugin disabled plugin s :
  records_kept s (state_of (init_plugin env disabled plugin s)).
Proof.
  unfold init_plugin, resolve_db_setting.
  pose proof (records_kept_get_or_create (plug_key_of env plugin) (PLUGIN_NAME plugin) s)
    as Hget.
  assert (Hrest : forall setting t,
             database (state_of (init_with_setting env disabled plugin
                                   (plug_key_of env plugin) setting t)) = database t).
  { intros setting t. unfold init_with_setting. rewrite testing. simpl.
    destruct (truthy disabled && String.eqb (__name__ plugin) (default "" disabled));
      [reflexivity|].
    destruct (construct plugin); reflexivity. }
  unfold bind.
  destruct (get_or_create env (plug_key_of env plugin) (PLUGIN_NAME plugin) s)
    as [r s1|e s1]; simpl in Hget.
  - apply records_kept_trans with s1; [exact Hget|].
    apply records_kept_database, Hrest.
  - destruct (is_db_error e); [|exact Hget].
    rewrite testing.
    apply records_kept_trans with s1; [exact Hget|].
    apply records_kept_database, Hrest.
Qed.

Lemma records_kept_init_all disabled plugins : forall s,
  records_kept s (state_of (for_each (init_plugin env disabled) plugins s)).
Proof.
  induction plugins as [|p plugins IH]; intros s; [apply records_kept_refl|].
  simpl. unfold bind.
  pose proof (records_kept_init_plugin disabled p s) as Hp.
  destruct (init_plugin env disabled p s) as [[] s1|e s1]; simpl in Hp; [|exact Hp].
  apply records_kept_trans with s1; [exact Hp | apply IH].
Qed.
End TestRecords.

(** X17. Under test configuration [_init_plugins] never changes or removes a
    record of the plugin table, also not the record of the blocked plugin and
    also not when it raises: the table afterwards is the old one with, at
    most, new records after it. *)
Theorem X17_test_mode_keeps_records (env : Env) (disabled : option string) (s : State) :
  PLUGIN_TESTING env = true ->
  records_kept s (state_of (_init_plugins env disabled s)).
Proof.
  intros Ht. unfold _init_plugins, load_integration_plugins. rewrite bind_gets.
  apply records_kept_init_all, Ht.
Qed.

(** An instance of X17: [bad_app] blocked under test configuration. *)
Lemma X17_test_mode_keeps_records_witness :
  records_kept Scenario.good_and_bad
    (state_of (_init_plugins Scenario.testing_env (Some "bad_app") Scenario.good_and_bad)).
Proof.
  apply X17_test_mode_keeps_records. reflexivity.
Defined.
